(** * Truck loading dashboard: the event-to-interval pipeline of [app.py]

    A shallow embedding of the data pipeline of [src/app.py] (pandas over a
    CSV feed) and the properties its specification states about it.

    Modelling conventions
    - a Python [str] is the list of its Unicode code points ([pystr]);
    - a data-frame cell of an object column is [option pystr], [None]
      standing for pandas' missing value (NaN / NaT);
    - a parsed timestamp is an integer count of nanoseconds ([datetime64[ns]]);
    - a float64 duration is represented by the exact rational it approximates;
      the only tests the code performs on durations are sign tests, which are
      exact in floating point as well;
    - library behaviour that depends on Unicode tables, on the date parser or
      on float64 rounding ([str.lower] and [str.isspace] outside ASCII,
      [pd.to_datetime], the mean of a float64 column and the rounding of that
      mean) is taken as a parameter of the development; a binary64 instance
      of the float parameters evaluates the examples;
    - the values of the [Product] and [Plate] columns are compared for
      equality; where the model needs an order on them it takes the order of
      text, as pandas does on a column of strings, and no general statement
      depends on which order that is. *)

From Stdlib Require Import List ZArith NArith QArith Qround Bool Lia.
From Stdlib Require Import String Ascii Permutation Sorted Lqa.
From Stdlib Require Import Floats.SpecFloat.
Import ListNotations.

Local Open Scope Z_scope.

(** ** Python strings *)

Definition pystr := list N.
Definition cell := option pystr.

Definition lit (s : string) : pystr :=
  List.map N_of_ascii (list_ascii_of_string s).

(** ** Orders used by [sort_values] and [groupby] *)

Definition lexc (c1 c2 : comparison) : comparison :=
  match c1 with Eq => c2 | _ => c1 end.

(** Python compares strings code point by code point. *)
Fixpoint str_cmp (a b : pystr) : comparison :=
  match a, b with
  | [], [] => Eq
  | [], _ :: _ => Lt
  | _ :: _, [] => Gt
  | x :: a', y :: b' => lexc (N.compare x y) (str_cmp a' b')
  end.

(** Missing values sort last ([na_position='last']). *)
Definition opt_cmp {A} (c : A -> A -> comparison) (a b : option A) : comparison :=
  match a, b with
  | Some x, Some y => c x y
  | Some _, None => Lt
  | None, Some _ => Gt
  | None, None => Eq
  end.

Definition cell_cmp : cell -> cell -> comparison := opt_cmp str_cmp.

Definition pair_cmp {A B} (ca : A -> A -> comparison) (cb : B -> B -> comparison)
  (x y : A * B) : comparison :=
  lexc (ca (fst x) (fst y)) (cb (snd x) (snd y)).

Definition leb_of {K} (c : K -> K -> comparison) (x y : K) : bool :=
  match c x y with Gt => false | _ => true end.

Definition eqb_of {K} (c : K -> K -> comparison) (x y : K) : bool :=
  match c x y with Eq => true | _ => false end.

Definition str_eqb : pystr -> pystr -> bool := eqb_of str_cmp.
Definition cell_eqb : cell -> cell -> bool := eqb_of cell_cmp.

(** A comparison function that decides a strict total order. *)
Record OrdOK {K} (c : K -> K -> comparison) : Prop := {
  ord_eq : forall x y, c x y = Eq <-> x = y;
  ord_sym : forall x y, c y x = CompOpp (c x y);
  ord_trans : forall x y z, c x y = Lt -> c y z = Lt -> c x z = Lt
}.

(** ** Data-frame primitives *)

(** [DataFrame.sort_values] on several columns is a stable sort. *)
Fixpoint insert_row {A} (leb : A -> A -> bool) (x : A) (l : list A) : list A :=
  match l with
  | [] => [x]
  | y :: l' => if leb x y then x :: y :: l' else y :: insert_row leb x l'
  end.

Fixpoint sort_values {A} (leb : A -> A -> bool) (l : list A) : list A :=
  match l with
  | [] => []
  | x :: l' => insert_row leb x (sort_values leb l')
  end.

Fixpoint dedup {K} (eqb : K -> K -> bool) (l : list K) : list K :=
  match l with
  | [] => []
  | x :: l' => x :: List.filter (fun y => negb (eqb x y)) (dedup eqb l')
  end.

Fixpoint dropna_keys {A K} (key : A -> option K) (l : list A) : list K :=
  match l with
  | [] => []
  | x :: l' =>
      match key x with
      | Some k => k :: dropna_keys key l'
      | None => dropna_keys key l'
      end
  end.

Definition has_key {A K} (c : K -> K -> comparison) (key : A -> option K)
  (k : K) (x : A) : bool :=
  match key x with Some k' => eqb_of c k' k | None => false end.

(** The group labels of [groupby(keys)] ([sort=True], [dropna=True]): the
    distinct keys without missing component, in increasing order. *)
Definition group_keys {A K} (c : K -> K -> comparison) (key : A -> option K)
  (l : list A) : list K :=
  sort_values (leb_of c) (dedup (eqb_of c) (dropna_keys key l)).

(** [groupby(keys)]: every group label with its rows, in frame order. *)
Definition groupby {A K} (c : K -> K -> comparison) (key : A -> option K)
  (l : list A) : list (K * list A) :=
  List.map (fun k => (k, List.filter (has_key c key k) l)) (group_keys c key l).

(** [groupby(keys)[col].first()] on a column without missing values. *)
Definition groupby_first {A K V} (c : K -> K -> comparison) (key : A -> option K)
  (val : A -> V) (l : list A) : list (K * V) :=
  List.flat_map
    (fun g => match snd g with
              | x :: _ => [(fst g, val x)]
              | [] => []
              end)
    (groupby c key l).

(** [groupby(key).tail(1)]: the last row of every group, in frame order;
    rows whose key is missing belong to no group. *)
Fixpoint groupby_tail1 {A K} (c : K -> K -> comparison) (key : A -> option K)
  (l : list A) : list A :=
  match l with
  | [] => []
  | x :: l' =>
      match key x with
      | None => groupby_tail1 c key l'
      | Some k =>
          if List.existsb (has_key c key k) l' then groupby_tail1 c key l'
          else x :: groupby_tail1 c key l'
      end
  end.

(** [Series.value_counts()]: every distinct non-missing value with its number
    of occurrences, most frequent first. *)
Definition dropna_col {A} (col : list (option A)) : list A :=
  dropna_keys (fun o => o) col.

Definition value_counts (col : list cell) : list (pystr * nat) :=
  sort_values (fun a b => Nat.leb (snd b) (snd a))
    (List.map (fun k => (k, List.length (List.filter (str_eqb k) (dropna_col col))))
       (dedup str_eqb (dropna_col col))).

Fixpoint assoc {K V} (eqb : K -> K -> bool) (k : K) (l : list (K * V)) : option V :=
  match l with
  | [] => None
  | (k', v) :: l' => if eqb k' k then Some v else assoc eqb k l'
  end.

(** [Series.reindex(labels, fill_value=fill)]. *)
Definition reindex (labels : list pystr) (fill : nat) (s : list (pystr * nat))
  : list (pystr * nat) :=
  List.map (fun k => (k, match assoc str_eqb k s with Some n => n | None => fill end))
    labels.

(** [count] counts the known values of a column. *)
Definition count {A} (col : list (option A)) : nat := List.length (dropna_col col).

(** [round(1)]: numpy rounds [x] to one decimal as [rint(x * 10) / 10], with
    halves going to the even neighbour. *)
Definition rint (q : Q) : Z :=
  let f := Qfloor q in
  match Qcompare (q - inject_Z f) (1 # 2) with
  | Lt => f
  | Gt => f + 1
  | Eq => if Z.even f then f else f + 1
  end.

Definition round1 (q : Q) : Q := (inject_Z (rint (q * 10)) / 10)%Q.

Definition Qlt_bool (x y : Q) : bool := negb (Qle_bool y x).

(** ** Records of the pipeline *)

(** A row of [action], the frame returned by [load_action]. *)
Record Event := {
  Timestamp : Z;
  Date : option Z;
  Product : cell;
  Plate : cell;
  Status : cell
}.

(** A row of the frame inside [load_action], before [dropna]. *)
Record ParsedRow := {
  p_Timestamp : option Z;
  p_Date : option Z;
  p_Product : cell;
  p_Plate : cell;
  p_Status : cell
}.

(** The result of [pd.read_csv]: the header and the rows of cells. *)
Record RawFrame := {
  columns : list pystr;
  rows : list (list cell)
}.

Inductive outcome :=
| ValueError (msg : pystr)
| Returned (df : list Event).

Definition Key3 := (Z * pystr * pystr)%type.
Definition Key4 := (Key3 * pystr)%type.

(** A row of [wide] after the pivot (line 73). *)
Record PivotRow := {
  w_Date : Z;
  w_Product : pystr;
  w_Plate : pystr;
  Waiting : option Z;
  Start_Loading : option Z;
  Complete_Loading : option Z
}.

(** A row of [wide] with its duration columns (line 80). *)
Record WideRow := {
  interval : PivotRow;
  Waiting_Time_min : option Q;
  Loading_Time_min : option Q;
  Total_Time_min : option Q
}.

Record SummaryRow := {
  s_Date : Z;
  s_Product : pystr;
  Avg_Waiting_min : option Q;
  Avg_Loading_min : option Q;
  Avg_Total_min : option Q;
  Truck_Count : nat
}.

Record PivotTable := {
  pt_index : list Key3;
  pt_columns : list pystr;
  pt_values : list (Key4 * Z)
}.

(** ** Constants of the program *)

Definition rename_map : list (pystr * pystr) :=
  [ (lit "Plate Number", lit "Plate"); (lit "Product Group", lit "Product");
    (lit "Action", lit "Status"); (lit "Time", lit "Timestamp") ].

Definition req : list pystr :=
  [ lit "Timestamp"; lit "Product"; lit "Plate"; lit "Status" ].

Definition status_map : list (pystr * pystr) :=
  [ (lit "waiting", lit "Waiting"); (lit "wait", lit "Waiting");
    (lit "start", lit "Start Loading"); (lit "start loading", lit "Start Loading");
    (lit "loading start", lit "Start Loading");
    (lit "complete", lit "Complete Loading"); (lit "completed", lit "Complete Loading");
    (lit "complete loading", lit "Complete Loading") ].

Definition known_statuses : list pystr :=
  [ lit "Waiting"; lit "Start Loading"; lit "Complete Loading" ].

Definition ns_per_second : Z := 1000000000.
Definition ns_per_day : Z := 86400 * ns_per_second.

(** [Series.dt.date]: the calendar day of a timestamp. *)
Definition dt_date (t : Z) : Z := t / ns_per_day.

(** ** Section 2 of the program: [load_action] *)

Definition has_col (c : pystr) (cols : list pystr) : bool :=
  List.existsb (str_eqb c) cols.

Definition rename_step (cols : list pystr) (kv : pystr * pystr) : list pystr :=
  if has_col (fst kv) cols && negb (has_col (snd kv) cols)
  then List.map (fun c => if str_eqb c (fst kv) then snd kv else c) cols
  else cols.

Definition missing (cols : list pystr) : list pystr :=
  List.filter (fun c => negb (has_col c cols)) req.

(** [repr] of a list of plain identifiers, as in the f-string of line 42. *)
Fixpoint join (sep : pystr) (l : list pystr) : pystr :=
  match l with
  | [] => []
  | [x] => x
  | x :: l' => x ++ sep ++ join sep l'
  end.

Definition py_repr_list (l : list pystr) : pystr :=
  lit "[" ++ join (lit ", ") (List.map (fun c => lit "'" ++ c ++ lit "'") l) ++ lit "]".

Fixpoint col_index (c : pystr) (cols : list pystr) : nat :=
  match cols with
  | [] => O
  | c' :: cols' => if str_eqb c' c then O else S (col_index c cols')
  end.

Definition column (cols : list pystr) (rs : list (list cell)) (c : pystr) : list cell :=
  List.map (fun r => List.nth (col_index c cols) r None) rs.

Definition fillna (c other : cell) : cell :=
  match c with Some _ => c | None => other end.

Fixpoint dict_get (d : list (pystr * pystr)) (k : pystr) : cell :=
  match d with
  | [] => None
  | (k', v) :: d' => if str_eqb k' k then Some v else dict_get d' k
  end.

(** [astype(str)] turns a missing value into the text [nan]. *)
Definition astype_str (c : cell) : pystr :=
  match c with Some s => s | None => lit "nan" end.

Definition is_ascii (c : N) : bool := (c <? 128)%N.

Definition ascii_lower (c : N) : N :=
  if ((65 <=? c) && (c <=? 90))%N then (c + 32)%N else c.

Definition ascii_isspace (c : N) : bool :=
  ((9 <=? c) && (c <=? 13) || (28 <=? c) && (c <=? 32))%N.

Fixpoint zip5 (a b : list (option Z)) (c d e : list cell) : list ParsedRow :=
  match a, b, c, d, e with
  | x1 :: a', x2 :: b', x3 :: c', x4 :: d', x5 :: e' =>
      Build_ParsedRow x1 x2 x3 x4 x5 :: zip5 a' b' c' d' e'
  | _, _, _, _, _ => []
  end.

(** [dropna(subset=["Timestamp"])]. *)
Fixpoint dropna_Timestamp (l : list ParsedRow) : list Event :=
  match l with
  | [] => []
  | r :: l' =>
      match p_Timestamp r with
      | Some t =>
          Build_Event t (p_Date r) (p_Product r) (p_Plate r) (p_Status r)
            :: dropna_Timestamp l'
      | None => dropna_Timestamp l'
      end
  end.

Section Normalizer.

(** [str.lower] on a string with a non-ASCII character, [str.isspace] on a
    non-ASCII character, and [pd.to_datetime(col, errors="coerce")] as the
    value it gives at each position of the column. *)
Variable uni_lower : pystr -> pystr.
Variable uni_isspace : N -> bool.
Variable to_datetime : list cell -> nat -> option Z.

Definition str_lower (s : pystr) : pystr :=
  if List.forallb is_ascii s then List.map ascii_lower s else uni_lower s.

Definition isspace (c : N) : bool :=
  if is_ascii c then ascii_isspace c else uni_isspace c.

Fixpoint lstrip (s : pystr) : pystr :=
  match s with
  | [] => []
  | c :: s' => if isspace c then lstrip s' else s
  end.

Definition str_strip (s : pystr) : pystr :=
  List.rev (lstrip (List.rev (lstrip s))).

(** Lines 52-54, on one cell of the [Status] column. *)
Definition normalize_status (c : cell) : cell :=
  fillna (dict_get status_map (str_lower (str_strip (astype_str c)))) c.

Definition load_action (df : RawFrame) : outcome :=
  let cols := List.fold_left rename_step rename_map (columns df) in
  match missing cols with
  | _ :: _ => ValueError (lit "Missing columns: " ++ py_repr_list (missing cols))
  | [] =>
      let raw := column cols (rows df) (lit "Timestamp") in
      let ts := List.map (to_datetime raw) (List.seq 0 (List.length raw)) in
      let date := List.map (option_map dt_date) ts in
      let status := List.map normalize_status (column cols (rows df) (lit "Status")) in
      Returned
        (dropna_Timestamp
           (zip5 ts date
              (column cols (rows df) (lit "Product"))
              (column cols (rows df) (lit "Plate"))
              status))
  end.

End Normalizer.

(** ** Section 3 of the program: the pivot *)

(** Products and plates are strings here, ordered as Python orders strings;
    the statements below use this order only through the groups it makes. *)
Definition key3_cmp : Key3 -> Key3 -> comparison :=
  pair_cmp (pair_cmp Z.compare str_cmp) str_cmp.

Definition key4_cmp : Key4 -> Key4 -> comparison :=
  pair_cmp key3_cmp str_cmp.

(** The key of [groupby(["Date","Product","Plate","Status"])]. *)
Definition key4 (e : Event) : option Key4 :=
  match Date e, Product e, Plate e, Status e with
  | Some d, Some p, Some v, Some s => Some (d, p, v, s)
  | _, _, _, _ => None
  end.

Definition sort_key5 (e : Event) : option Z * cell * cell * cell * Z :=
  (Date e, Product e, Plate e, Status e, Timestamp e).

Definition cmp5 : option Z * cell * cell * cell * Z ->
                  option Z * cell * cell * cell * Z -> comparison :=
  pair_cmp (pair_cmp (pair_cmp (pair_cmp (opt_cmp Z.compare) cell_cmp) cell_cmp) cell_cmp)
    Z.compare.

Definition leb5 (x y : Event) : bool := leb_of cmp5 (sort_key5 x) (sort_key5 y).

Definition first_stage (action : list Event) : list (Key4 * Z) :=
  groupby_first key4_cmp key4 Timestamp (sort_values leb5 action).

(** [pivot_table(index=[Date,Product,Plate], columns="Status",
    values="Timestamp", aggfunc="first")]: group on index and columns, keep
    the first value, then unstack the column key. *)
Definition pivot_table (fs : list (Key4 * Z)) : PivotTable :=
  let agged := groupby_first key4_cmp (fun r : Key4 * Z => Some (fst r)) snd fs in
  {| pt_index := group_keys key3_cmp (fun r : Key4 * Z => Some (fst (fst r))) agged;
     pt_columns := group_keys str_cmp (fun r : Key4 * Z => Some (snd (fst r))) agged;
     pt_values := agged |}.

(** Lines 70-73: a status column the pivot lacks is filled with [pd.NaT]. *)
Definition wide_column (pt : PivotTable) (col : pystr) (k : Key3) : option Z :=
  if has_col col (pt_columns pt)
  then assoc (eqb_of key4_cmp) (k, col) (pt_values pt)
  else None.

Definition wide_pivot (action : list Event) : list PivotRow :=
  let pt := pivot_table (first_stage action) in
  List.map
    (fun k : Key3 =>
       {| w_Date := fst (fst k); w_Product := snd (fst k); w_Plate := snd k;
          Waiting := wide_column pt (lit "Waiting") k;
          Start_Loading := wide_column pt (lit "Start Loading") k;
          Complete_Loading := wide_column pt (lit "Complete Loading") k |})
    (pt_index pt).

(** ** Section 4 of the program: durations *)

Definition ts_sub (a b : option Z) : option Z :=
  match a, b with
  | Some x, Some y => Some (x - y)
  | _, _ => None
  end.

Definition total_seconds (d : Z) : Q := (inject_Z d / inject_Z ns_per_second)%Q.

(** [(a - b).dt.total_seconds() / 60]. *)
Definition minutes_between (a b : option Z) : option Q :=
  option_map (fun d => (total_seconds d / 60)%Q) (ts_sub a b).

(** [wide.loc[wide[c] < 0, c] = np.nan]. *)
Definition drop_negative (x : option Q) : option Q :=
  match x with
  | Some q => if Qlt_bool q 0 then None else Some q
  | None => None
  end.

Definition durations (r : PivotRow) : WideRow :=
  {| interval := r;
     Waiting_Time_min := drop_negative (minutes_between (Start_Loading r) (Waiting r));
     Loading_Time_min :=
       drop_negative (minutes_between (Complete_Loading r) (Start_Loading r));
     Total_Time_min := drop_negative (minutes_between (Complete_Loading r) (Waiting r)) |}.

Definition wide (action : list Event) : list WideRow :=
  List.map durations (wide_pivot action).

(** ** The failure of [reset_index] (line 68)

    [wide_pivot] and [wide] are the frames of sections 3 and 4 when
    [reset_index] returns; [wide_frame] is the outcome with its failure. *)

(** [reset_index] puts the index levels back as columns, the last level
    first, and raises [ValueError] when the frame already has a column of
    that name: here, when a status label is [Plate], [Product] or [Date]. *)
Definition index_levels_reversed : list pystr := [lit "Plate"; lit "Product"; lit "Date"].

Inductive wide_outcome :=
| WideError (msg : pystr)
| WideFrame (rows : list WideRow).

Definition reset_index_collision (pt : PivotTable) : option pystr :=
  List.find (fun name => has_col name (pt_columns pt)) index_levels_reversed.

Definition wide_frame (action : list Event) : wide_outcome :=
  match reset_index_collision (pivot_table (first_stage action)) with
  | Some name => WideError (lit "cannot insert " ++ name ++ lit ", already exists")
  | None => WideFrame (wide action)
  end.

(** ** Section 5 of the program: the day and product filter *)

Definition df_day (w : list WideRow) (sel_date : Z) (sel_products : list pystr)
  : list WideRow :=
  List.filter
    (fun r => Z.eqb (w_Date (interval r)) sel_date
              && has_col (w_Product (interval r)) sel_products)
    w.

(** ** Section 6 of the program: live status counts *)

Definition on_date (sel_date : Z) (e : Event) : bool :=
  eqb_of (opt_cmp Z.compare) (Date e) (Some sel_date).

Definition leb_plate_ts (x y : Event) : bool :=
  leb_of (pair_cmp cell_cmp Z.compare) (Plate x, Timestamp x) (Plate y, Timestamp y).

Definition latest (action : list Event) (sel_date : Z) : list Event :=
  groupby_tail1 str_cmp Plate
    (sort_values leb_plate_ts (List.filter (on_date sel_date) action)).

Definition status_counts (action : list Event) (sel_date : Z) : list (pystr * nat) :=
  reindex known_statuses 0 (value_counts (List.map Status (latest action sel_date))).

(** ** Section 7 of the program: the daily summary *)

Definition key2 (r : WideRow) : option (Z * pystr) :=
  Some (w_Date (interval r), w_Product (interval r)).

Definition key2_cmp : Z * pystr -> Z * pystr -> comparison :=
  pair_cmp Z.compare str_cmp.

Section FloatLibrary.

(** The float64 results of the library, as parameters: [float_mean] is the
    value [mean] computes for the known values of a float64 column, given in
    the order of the frame as [wide] holds them, and [np_round1] is what
    [round(1)] makes of such a mean. Both depend on float64 rounding: the
    mean of 23/60 and 31/60 is 0.45000000000000007 and rounds to 0.5. *)
Variable float_mean : list Q -> Q.
Variable np_round1 : Q -> Q.

(** [mean] skips missing values and is missing on a group without known
    value. *)
Definition agg_mean (col : list (option Q)) : option Q :=
  match dropna_col col with
  | [] => None
  | q :: ks => Some (float_mean (q :: ks))
  end.

Definition summary (day : list WideRow) : list SummaryRow :=
  List.map
    (fun g : (Z * pystr) * list WideRow =>
       {| s_Date := fst (fst g);
          s_Product := snd (fst g);
          Avg_Waiting_min :=
            option_map np_round1 (agg_mean (List.map Waiting_Time_min (snd g)));
          Avg_Loading_min :=
            option_map np_round1 (agg_mean (List.map Loading_Time_min (snd g)));
          Avg_Total_min :=
            option_map np_round1 (agg_mean (List.map Total_Time_min (snd g)));
          Truck_Count :=
            count (List.map (fun r => Some (w_Plate (interval r))) (snd g)) |})
    (groupby key2_cmp key2 day).

(** ** Section 9 of the program: the trend *)

(** [wide.groupby(["Date","Product"]).agg(Avg_Total_min=("Total_Time_min","mean"))]. *)
Definition trend_agg (w : list WideRow) : list ((Z * pystr) * option Q) :=
  List.map
    (fun g : (Z * pystr) * list WideRow =>
       (fst g, agg_mean (List.map Total_Time_min (snd g))))
    (groupby key2_cmp key2 w).

(** [.dropna(subset=["Avg_Total_min"])]. *)
Definition trend (w : list WideRow) : list ((Z * pystr) * Q) :=
  dropna_keys
    (fun r : (Z * pystr) * option Q => option_map (fun q => (fst r, q)) (snd r))
    (trend_agg w).


End FloatLibrary.

(** ** A binary64 instance of the float parameters

    IEEE 754 binary64 with round-to-nearest-even, from the specification of
    floats of the standard library. The duration columns are computed as in
    lines 76-78, the mean as the grouped mean of pandas does (compensated
    summation, then a division by the count), the rounding as numpy does
    (multiply by ten, [rint], divide by ten). *)

Definition b64_of_Z (z : Z) : spec_float := binary_normalize 53 1024 z 0 false.
Definition b64_add : spec_float -> spec_float -> spec_float := SFadd 53 1024.
Definition b64_sub : spec_float -> spec_float -> spec_float := SFsub 53 1024.
Definition b64_mul : spec_float -> spec_float -> spec_float := SFmul 53 1024.
Definition b64_div : spec_float -> spec_float -> spec_float := SFdiv 53 1024.

(** The rational number a finite float is. *)
Definition b64_to_Q (x : spec_float) : Q :=
  match x with
  | S754_finite sign m e =>
      let n := if sign then Z.neg m else Z.pos m in
      match e with
      | Z0 => inject_Z n
      | Zpos k => inject_Z (n * 2 ^ Zpos k)
      | Zneg k => Qmake n (2 ^ k)
      end
  | _ => 0%Q
  end.

Definition b64_of_Q (q : Q) : spec_float :=
  b64_div (b64_of_Z (Qnum q)) (b64_of_Z (Zpos (Qden q))).

(** [(a - b).dt.total_seconds() / 60] on a difference of [ns] nanoseconds. *)
Definition b64_minutes (ns : Z) : spec_float :=
  b64_div (b64_div (b64_of_Z ns) (b64_of_Z 1000000000)) (b64_of_Z 60).

(** The float64 value of a duration that [wide] holds as [ns / (60 * 10^9)]. *)
Definition b64_of_duration (q : Q) : spec_float :=
  b64_minutes ((Qnum q * 60000000000) / Zpos (Qden q)).

Definition b64_rint (x : spec_float) : spec_float :=
  match x with
  | S754_finite _ _ _ => b64_of_Z (rint (b64_to_Q x))
  | _ => x
  end.

Fixpoint kahan_sum (l : list spec_float) (sumx compensation : spec_float) : spec_float :=
  match l with
  | [] => sumx
  | v :: l' =>
      let y := b64_sub v compensation in
      let t := b64_add sumx y in
      kahan_sum l' t (b64_sub (b64_sub t sumx) y)
  end.

Definition b64_mean (l : list Q) : Q :=
  b64_to_Q
    (b64_div (kahan_sum (List.map b64_of_duration l) (S754_zero false) (S754_zero false))
       (b64_of_Z (Z.of_nat (List.length l)))).

Definition b64_round1 (y : Q) : Q :=
  b64_to_Q (b64_div (b64_rint (b64_mul (b64_of_Q y) (b64_of_Z 10))) (b64_of_Z 10)).

(** ** Reference descriptions used in the statements *)

(** The row a stable sort puts first: the least one, the earliest in frame
    order among equals. *)
Fixpoint pick_first {A} (leb : A -> A -> bool) (l : list A) : option A :=
  match l with
  | [] => None
  | x :: l' =>
      match pick_first leb l' with
      | None => Some x
      | Some y => if leb x y then Some x else Some y
      end
  end.

(** The row a stable sort puts last: the greatest one, the latest in frame
    order among equals. *)
Fixpoint pick_last {A} (leb : A -> A -> bool) (l : list A) : option A :=
  match l with
  | [] => None
  | x :: l' =>
      match pick_last leb l' with
      | None => Some x
      | Some y => if leb x y then Some y else Some x
      end
  end.

Fixpoint last_error {A} (l : list A) : option A :=
  match l with
  | [] => None
  | [x] => Some x
  | _ :: l' => last_error l'
  end.

Definition row_key (r : WideRow) : Key3 :=
  (w_Date (interval r), w_Product (interval r), w_Plate (interval r)).

(** The events of an entity-day: date, product and vehicle as in the key. *)
Definition event_of (k : Key3) (e : Event) : Prop :=
  Date e = Some (fst (fst k)) /\ Product e = Some (snd (fst k)) /\ Plate e = Some (snd k).

(** [field] is the earliest timestamp of the events of [k] with status [s],
    and is absent when there is no such event. *)
Definition is_earliest (action : list Event) (k : Key3) (s : pystr)
  (field : option Z) : Prop :=
  match field with
  | None => forall e, In e action -> event_of k e -> Status e <> Some s
  | Some t =>
      (exists e, In e action /\ event_of k e /\ Status e = Some s /\ Timestamp e = t) /\
      (forall e, In e action -> event_of k e -> Status e = Some s -> t <= Timestamp e)
  end.

(** An event whose status cell is missing, as an empty [Status] cell of the
    feed gives. *)
Definition nan_status_action : list Event :=
  [ {| Timestamp := 65 * ns_per_day; Date := Some 65; Product := Some (lit "Cement");
       Plate := Some (lit "ABC-1"); Status := None |} ].

(** Elapsed minutes between two instants, as a real (here rational) number. *)
Definition elapsed_minutes (finish start : Z) : Q :=
  ((inject_Z finish - inject_Z start) / inject_Z (60 * ns_per_second))%Q.

(** What the specification asks of one duration: absent when an endpoint is
    absent or when the end precedes the start, the elapsed minutes otherwise. *)
Definition is_duration (finish start : option Z) (d : option Q) : Prop :=
  match finish, start with
  | Some e, Some s =>
      if e <? s then d = None
      else exists q, d = Some q /\ (q == elapsed_minutes e s)%Q
  | _, _ => d = None
  end.

Definition never_negative (d : option Q) : Prop :=
  match d with Some q => (0 <= q)%Q | None => True end.

(** An interval whose three instants coincide. *)
Definition instant_interval : PivotRow :=
  {| w_Date := 0; w_Product := lit "Cement"; w_Plate := lit "ABC-1";
     Waiting := Some 1000; Start_Loading := Some 1000; Complete_Loading := Some 1000 |}.

(** The events of one vehicle on one date, in the order of the input. *)
Definition vehicle_events (action : list Event) (sel_date : Z) (p : pystr) : list Event :=
  List.filter (fun e => on_date sel_date e && has_key str_cmp Plate p e) action.

(** [e] is the event of [evs] with the greatest timestamp, the last one in
    the order of [evs] among those that share it. *)
Definition is_latest (evs : list Event) (e : Event) : Prop :=
  exists l1 l2, evs = l1 ++ e :: l2 /\
    (forall x, In x l1 -> Timestamp x <= Timestamp e) /\
    (forall x, In x l2 -> Timestamp x < Timestamp e).

Definition leb_ts (x y : Event) : bool := Timestamp x <=? Timestamp y.

Definition latest_event (evs : list Event) : option Event := pick_last leb_ts evs.

(** The vehicles observed on a date, and the status of the latest event of
    each. *)
Definition vehicles (action : list Event) (sel_date : Z) : list pystr :=
  dedup str_eqb (dropna_keys Plate (List.filter (on_date sel_date) action)).

Definition live_status (action : list Event) (sel_date : Z) (p : pystr) : cell :=
  match latest_event (vehicle_events action sel_date p) with
  | Some e => Status e
  | None => None
  end.

Definition vehicles_in (action : list Event) (sel_date : Z) (s : pystr) : nat :=
  List.length
    (List.filter (fun p => cell_eqb (live_status action sel_date p) (Some s))
       (vehicles action sel_date)).

(** The records of a day that share a date and a product. *)
Definition same_group (d : Z) (p : pystr) (r : WideRow) : bool :=
  Z.eqb (w_Date (interval r)) d && str_eqb (w_Product (interval r)) p.

Definition group_of (day : list WideRow) (d : Z) (p : pystr) : list WideRow :=
  List.filter (same_group d p) day.

Definition summary_key (s : SummaryRow) : Z * pystr := (s_Date s, s_Product s).



(** The synonym table as the specification words it: three groups of
    spellings, each with its canonical status. *)
Definition synonym_table : list (list pystr * pystr) :=
  [ ([lit "waiting"; lit "wait"], lit "Waiting");
    ([lit "start"; lit "start loading"; lit "loading start"], lit "Start Loading");
    ([lit "complete"; lit "completed"; lit "complete loading"], lit "Complete Loading") ].

Definition synonym_lookup (k : pystr) : option pystr :=
  option_map snd (List.find (fun g => has_col k (fst g)) synonym_table).

(** A required field is present in a feed under its own name or under the
    name the feed may use for it ("Plate Number", "Product Group", "Action",
    "Time"). *)
Definition field_present (cols : list pystr) (c : pystr) : bool :=
  has_col c cols
  || List.existsb (fun kv => str_eqb (snd kv) c && has_col (fst kv) cols) rename_map.

Definition missing_fields (cols : list pystr) : list pystr :=
  List.filter (fun c => negb (field_present cols c)) req.

Definition renamed (cols : list pystr) : list pystr :=
  List.fold_left rename_step rename_map cols.

Definition ascii_whitespace : list N := [9; 10; 11; 12; 13; 28; 29; 30; 31; 32]%N.

Definition upper_letters : pystr := lit "ABCDEFGHIJKLMNOPQRSTUVWXYZ".
Definition lower_letters : pystr := lit "abcdefghijklmnopqrstuvwxyz".

Fixpoint letter_lookup (c : N) (table : list (N * N)) : option N :=
  match table with
  | [] => None
  | (u, l) :: table' => if N.eqb u c then Some l else letter_lookup c table'
  end.

(** The lower-case letter of an upper-case ASCII letter; any other character
    is unchanged. *)
Definition lower_letter (c : N) : N :=
  match letter_lookup c (List.combine upper_letters lower_letters) with
  | Some l => l
  | None => c
  end.

Section NormalizerSpec.

Variable uni_lower : pystr -> pystr.
Variable uni_isspace : N -> bool.
Variable to_datetime : list cell -> nat -> option Z.

(** Trimming and lower-casing, described without the functions of the
    code. A whitespace character is one of the ten ASCII ones (tab, line
    feed, vertical tab, form feed, carriage return, the four separators and
    the space) or a non-ASCII one that Unicode makes a space. *)
Definition whitespace (c : N) : Prop :=
  In c ascii_whitespace \/ ((128 <= c)%N /\ uni_isspace c = true).

(** [t] is [s] without its leading and trailing whitespace. *)
Definition trimmed (s t : pystr) : Prop :=
  exists pre post,
    s = pre ++ t ++ post /\
    (forall c, In c pre -> whitespace c) /\
    (forall c, In c post -> whitespace c) /\
    (forall c, hd_error t = Some c -> ~ whitespace c) /\
    (forall c, last_error t = Some c -> ~ whitespace c).

(** [k] is [t] in lower case: letter by letter when [t] is ASCII, by the
    Unicode rules otherwise. *)
Definition lowered (t k : pystr) : Prop :=
  (Forall (fun c => (c < 128)%N) t -> k = List.map lower_letter t) /\
  (~ Forall (fun c => (c < 128)%N) t -> k = uni_lower t).

(** The normalized event of the record at position [i] of the feed, if its
    timestamp parses. *)
Definition normalize_record (df : RawFrame) (ir : nat * list cell) : option Event :=
  let cols := renamed (columns df) in
  let at_col := fun c => List.nth (col_index (lit c) cols) (snd ir) None in
  match to_datetime (column cols (rows df) (lit "Timestamp")) (fst ir) with
  | Some t =>
      Some {| Timestamp := t; Date := Some (dt_date t);
              Product := at_col "Product"%string; Plate := at_col "Plate"%string;
              Status := normalize_status uni_lower uni_isspace (at_col "Status"%string) |}
  | None => None
  end.

Definition normalized_events (df : RawFrame) : list Event :=
  dropna_keys (normalize_record df)
    (List.combine (List.seq 0 (List.length (rows df))) (rows df)).

End NormalizerSpec.

(** Sample instances of the library parameters: strings without non-ASCII
    letters or spaces, and timestamps written as the single letters "A".."Z". *)
Definition sample_lower (s : pystr) : pystr := s.
Definition sample_isspace (c : N) : bool := false.
Definition sample_to_datetime (col : list cell) (i : nat) : option Z :=
  match List.nth i col None with
  | Some [c] => if ((65 <=? c) && (c <=? 90))%N then Some (Z.of_N c * ns_per_day) else None
  | _ => None
  end.

Definition sample_feed : RawFrame :=
  {| columns := [lit "Time"; lit "Product"; lit "Plate Number"; lit "Status"];
     rows := [ [Some (lit "A"); Some (lit "Cement"); Some (lit "ABC-1"); Some (lit " WAITING ")];
               [Some (lit "not a time"); Some (lit "Cement"); Some (lit "ABC-1"); Some (lit "start")];
               [None; Some (lit "Cement"); Some (lit "ABC-2"); Some (lit "Unloading")];
               [Some (lit "B"); Some (lit "Cement"); Some (lit "ABC-2"); Some (lit "Unloading")] ] |}.

(** A feed whose only record has an empty [Status] cell. *)
Definition empty_status_feed : RawFrame :=
  {| columns := [lit "Timestamp"; lit "Product"; lit "Plate"; lit "Status"];
     rows := [ [Some (lit "A"); Some (lit "Cement"); Some (lit "ABC-1"); None] ] |}.

(** The scenarios of the specification: a full cycle of one truck, with a
    repeated [Waiting] event, and a cycle entered out of order. Instants are
    minutes of the day 0, in nanoseconds. *)
Definition at_minute (h m : Z) : Z := (h * 60 + m) * 60 * ns_per_second.

Definition scenario_event (h m : Z) (plate status : string) : Event :=
  {| Timestamp := at_minute h m; Date := Some 0; Product := Some (lit "Cement");
     Plate := Some (lit plate); Status := Some (lit status) |}.

Definition full_cycle : list Event :=
  [ scenario_event 8 10 "ABC-1" "Waiting"; scenario_event 9 45 "ABC-1" "Complete Loading";
    scenario_event 8 0 "ABC-1" "Waiting"; scenario_event 8 30 "ABC-1" "Start Loading" ].

Definition out_of_order : list Event :=
  [ scenario_event 8 0 "ABC-1" "Waiting"; scenario_event 9 30 "ABC-1" "Start Loading";
    scenario_event 9 0 "ABC-1" "Complete Loading" ].

Definition one_waiting_vehicle : list Event :=
  [ scenario_event 8 0 "X" "Waiting"; scenario_event 8 5 "Y" "Unloading" ].

Definition feed_without_plate : RawFrame :=
  {| columns := [lit "Time"; lit "Product"; lit "Status"];
     rows := [ [Some (lit "A"); Some (lit "Cement"); Some (lit "Waiting")] ] |}.

(** ** Section 5 of the program: the options of the selection widgets *)

(** [sorted(wide["Date"].dropna().unique().tolist())]. *)
Definition dates (w : list WideRow) : list Z :=
  sort_values (leb_of Z.compare)
    (dedup (eqb_of Z.compare)
       (dropna_col (List.map (fun r => Some (w_Date (interval r))) w))).

(** Line 84, with [date.today()] as [today]: today when it has data, else
    the last of the dates, else nothing. *)
Definition default_date (today : Z) (ds : list Z) : option Z :=
  if List.existsb (Z.eqb today) ds then Some today else last_error ds.

(** [list.index]: the first position of a value. *)
Fixpoint index_of (d : Z) (ds : list Z) : nat :=
  match ds with
  | [] => O
  | d' :: ds' => if Z.eqb d' d then O else S (index_of d ds')
  end.

(** The [index] argument of the selectbox (line 87). *)
Definition default_index (today : Z) (ds : list Z) : nat :=
  match default_date today ds with
  | Some d => if List.existsb (Z.eqb d) ds then index_of d ds else O
  | None => O
  end.

(** [sorted(wide["Product"].dropna().unique().tolist())], the options and the
    default selection of the multiselect. *)
Definition products (w : list WideRow) : list pystr :=
  sort_values (leb_of str_cmp)
    (dedup (eqb_of str_cmp)
       (dropna_col (List.map (fun r => Some (w_Product (interval r))) w))).

(** ** Section 8 of the program: the per-truck table *)

Record TruckRow := {
  t_Product : pystr;
  t_Plate : pystr;
  t_Waiting : option Z;
  t_Start_Loading : option Z;
  t_Complete_Loading : option Z;
  t_Waiting_Time_min : option Q;
  t_Loading_Time_min : option Q;
  t_Total_Time_min : option Q
}.

Definition select_truck_columns (r : WideRow) : TruckRow :=
  {| t_Product := w_Product (interval r);
     t_Plate := w_Plate (interval r);
     t_Waiting := Waiting (interval r);
     t_Start_Loading := Start_Loading (interval r);
     t_Complete_Loading := Complete_Loading (interval r);
     t_Waiting_Time_min := Waiting_Time_min r;
     t_Loading_Time_min := Loading_Time_min r;
     t_Total_Time_min := Total_Time_min r |}.

Definition leb_product_plate (x y : TruckRow) : bool :=
  leb_of (pair_cmp str_cmp str_cmp) (t_Product x, t_Plate x) (t_Product y, t_Plate y).

(** [round(1)] on a frame rounds the float columns and leaves the others. *)
Definition round_truck_row (r : TruckRow) : TruckRow :=
  {| t_Product := t_Product r;
     t_Plate := t_Plate r;
     t_Waiting := t_Waiting r;
     t_Start_Loading := t_Start_Loading r;
     t_Complete_Loading := t_Complete_Loading r;
     t_Waiting_Time_min := option_map round1 (t_Waiting_Time_min r);
     t_Loading_Time_min := option_map round1 (t_Loading_Time_min r);
     t_Total_Time_min := option_map round1 (t_Total_Time_min r) |}.

Definition per_truck_table (day : list WideRow) : list TruckRow :=
  List.map round_truck_row
    (sort_values leb_product_plate (List.map select_truck_columns day)).

(** ** Further reference descriptions *)

Definition date_consistent (action : list Event) : Prop :=
  forall e, In e action -> Date e = Some (dt_date (Timestamp e)).

Definition total_count (l : list nat) : nat := List.fold_right Nat.add O l.

Definition full_cycle_interval : PivotRow :=
  {| w_Date := 0; w_Product := lit "Cement"; w_Plate := lit "ABC-1";
     Waiting := Some (at_minute 8 0); Start_Loading := Some (at_minute 8 30);
     Complete_Loading := Some (at_minute 9 45) |}.

(** ** Reference descriptions of the averages *)

Definition Qabs_le (x bound : Q) : Prop := (- bound <= x /\ x <= bound)%Q.

Definition Qsum (l : list Q) : Q := List.fold_right Qplus 0%Q l.

(** The values of a field over the records where it is known. *)
Definition known_values {A} (f : A -> option Q) (g : list A) : list Q :=
  List.flat_map (fun r => match f r with Some q => [q] | None => [] end) g.

Definition arithmetic_mean (l : list Q) : Q :=
  (Qsum l / inject_Z (Z.of_nat (List.length l)))%Q.

(** [avg] is the library's mean of [vals], rounded by the library; it is
    absent when there is no value. *)
Definition is_average (fm : list Q -> Q) (fr : Q -> Q) (avg : option Q) (vals : list Q)
  : Prop :=
  match vals with
  | [] => avg = None
  | _ :: _ => avg = Some (fr (fm vals))
  end.

(** What float64 arithmetic grants: a mean of at most [n] non-negative
    values within a relative error [eps] of their arithmetic mean, and a
    rounding to one decimal within 0.05 of its argument, up to [eps]. *)
Definition mean_accurate (fm : list Q -> Q) (eps : Q) (n : nat) : Prop :=
  forall l, l <> [] -> (List.length l <= n)%nat -> (forall x, In x l -> (0 <= x)%Q) ->
    Qabs_le (fm l - arithmetic_mean l) (eps * arithmetic_mean l).

Definition round_accurate (fr : Q -> Q) (eps : Q) : Prop :=
  forall y, (0 <= y)%Q -> Qabs_le (fr y - y) ((1 # 20) + eps * (y + 1)).


(** ** Further sample inputs *)

(** A feed of three trucks on one day: the first has an empty [Status]
    cell, the second waits, the third carries a label outside the table. *)
Definition three_trucks_feed : RawFrame :=
  {| columns := [lit "Timestamp"; lit "Product"; lit "Plate"; lit "Status"];
     rows := [ [Some (lit "A"); Some (lit "Cement"); Some (lit "ABC-1"); None];
               [Some (lit "A"); Some (lit "Cement"); Some (lit "ABC-2"); Some (lit "Waiting")];
               [Some (lit "A"); Some (lit "Cement"); Some (lit "ABC-3"); Some (lit "Unloading")] ] |}.

Definition three_trucks_event (plate : string) (status : cell) : Event :=
  {| Timestamp := 65 * ns_per_day; Date := Some 65; Product := Some (lit "Cement");
     Plate := Some (lit plate); Status := status |}.

Definition three_trucks_action : list Event :=
  [ three_trucks_event "ABC-1" None;
    three_trucks_event "ABC-2" (Some (lit "Waiting"));
    three_trucks_event "ABC-3" (Some (lit "Unloading")) ].

(** A truck whose status label is the name of an index column. *)
Definition status_plate_action : list Event :=
  [ three_trucks_event "ABC-1" (Some (lit "Plate")) ].

(** Two trucks that waited 23 and 31 seconds. *)
Definition two_waits_action : list Event :=
  [ scenario_event 8 0 "ABC-1" "Waiting";
    {| Timestamp := at_minute 8 0 + 23 * ns_per_second; Date := Some 0;
       Product := Some (lit "Cement"); Plate := Some (lit "ABC-1");
       Status := Some (lit "Start Loading") |};
    scenario_event 8 0 "ABC-2" "Waiting";
    {| Timestamp := at_minute 8 0 + 31 * ns_per_second; Date := Some 0;
       Product := Some (lit "Cement"); Plate := Some (lit "ABC-2");
       Status := Some (lit "Start Loading") |} ].

(** * Properties *)

(** ** Comparison functions *)

Lemma Z_compare_ok : OrdOK Z.compare.
Proof.
  split.
  - intros x y. apply Z.compare_eq_iff.
  - intros x y. apply Z.compare_antisym.
  - intros x y z H1 H2. rewrite Z.compare_lt_iff in *. lia.
Qed.

Lemma N_compare_ok : OrdOK N.compare.
Proof.
  split.
  - intros x y. apply N.compare_eq_iff.
  - intros x y. apply N.compare_antisym.
  - intros x y z H1 H2. rewrite N.compare_lt_iff in *. lia.
Qed.

Lemma lexc_eq (c1 c2 : comparison) : lexc c1 c2 = Eq <-> c1 = Eq /\ c2 = Eq.
Proof. destruct c1; simpl; intuition congruence. Qed.

Lemma lexc_opp (c1 c2 : comparison) : CompOpp (lexc c1 c2) = lexc (CompOpp c1) (CompOpp c2).
Proof. destruct c1; reflexivity. Qed.

Lemma lexc_lt (c1 c2 : comparison) :
  lexc c1 c2 = Lt <-> c1 = Lt \/ (c1 = Eq /\ c2 = Lt).
Proof. destruct c1; simpl; intuition congruence. Qed.

Lemma pair_cmp_ok {A B} (ca : A -> A -> comparison) (cb : B -> B -> comparison) :
  OrdOK ca -> OrdOK cb -> OrdOK (pair_cmp ca cb).
Proof.
  intros [ea sa ta] [eb sb tb]. split.
  - intros [a b] [a' b']. unfold pair_cmp. simpl. rewrite lexc_eq, ea, eb.
    split; [intros [-> ->]; reflexivity | intros H; inversion H; auto].
  - intros x y. unfold pair_cmp. rewrite lexc_opp, <- sa, <- sb. reflexivity.
  - intros [a b] [a' b'] [a'' b'']. unfold pair_cmp. simpl.
    rewrite !lexc_lt. intros [H1 | [H1 H1']] [H2 | [H2 H2']].
    + left. eauto.
    + apply ea in H2. subst. auto.
    + apply ea in H1. subst. auto.
    + apply ea in H1. apply ea in H2. subst. right. split; [apply ea; reflexivity | eauto].
Qed.

Lemma opt_cmp_ok {A} (c : A -> A -> comparison) : OrdOK c -> OrdOK (opt_cmp c).
Proof.
  intros [e s t]. split.
  - intros [x|] [y|]; simpl; try (split; congruence).
    rewrite e. split; congruence.
  - intros [x|] [y|]; simpl; auto.
  - intros [x|] [y|] [z|]; simpl; try congruence. apply t.
Qed.

Lemma str_cmp_ok : OrdOK str_cmp.
Proof.
  destruct N_compare_ok as [e s t]. split.
  - induction x as [|a x IH]; intros [|b y]; simpl; try (split; congruence).
    rewrite lexc_eq, e, IH. split; [intros [-> ->]; reflexivity | intros H; inversion H; auto].
  - induction x as [|a x IH]; intros [|b y]; simpl; auto.
    rewrite lexc_opp, <- s, <- IH. reflexivity.
  - induction x as [|a x IH]; intros [|b y] [|c z]; simpl; try congruence.
    rewrite !lexc_lt. intros [H1 | [H1 H1']] [H2 | [H2 H2']].
    + left. eauto.
    + apply e in H2. subst. auto.
    + apply e in H1. subst. auto.
    + apply e in H1. apply e in H2. subst. right. split; [apply e; reflexivity | eauto].
Qed.

Lemma cell_cmp_ok : OrdOK cell_cmp.
Proof. apply opt_cmp_ok, str_cmp_ok. Qed.

Lemma key3_cmp_ok : OrdOK key3_cmp.
Proof. repeat apply pair_cmp_ok; auto using Z_compare_ok, str_cmp_ok. Qed.

Lemma key4_cmp_ok : OrdOK key4_cmp.
Proof. apply pair_cmp_ok; auto using key3_cmp_ok, str_cmp_ok. Qed.

Lemma key2_cmp_ok : OrdOK key2_cmp.
Proof. apply pair_cmp_ok; auto using Z_compare_ok, str_cmp_ok. Qed.

Lemma cmp5_ok : OrdOK cmp5.
Proof.
  repeat apply pair_cmp_ok; auto using Z_compare_ok, cell_cmp_ok.
  apply opt_cmp_ok, Z_compare_ok.
Qed.

Section OrderFacts.
Context {K : Type} (c : K -> K -> comparison) (ok : OrdOK c).

Lemma eqb_of_true (x y : K) : eqb_of c x y = true <-> x = y.
Proof.
  unfold eqb_of. rewrite <- (ord_eq c ok). destruct (c x y); intuition congruence.
Qed.

Lemma eqb_of_false (x y : K) : eqb_of c x y = false <-> x <> y.
Proof.
  rewrite <- eqb_of_true. destruct (eqb_of c x y); intuition congruence.
Qed.

Lemma eqb_of_refl (x : K) : eqb_of c x x = true.
Proof. apply eqb_of_true. reflexivity. Qed.

Lemma leb_of_total (x y : K) : leb_of c x y = false -> leb_of c y x = true.
Proof.
  unfold leb_of. rewrite (ord_sym c ok x y). destruct (c x y); simpl; congruence.
Qed.

Lemma leb_of_trans (x y z : K) :
  leb_of c x y = true -> leb_of c y z = true -> leb_of c x z = true.
Proof.
  unfold leb_of. intros H1 H2.
  destruct (c x y) eqn:E1; try discriminate;
    destruct (c y z) eqn:E2; try discriminate.
  - apply (ord_eq c ok) in E1. subst. rewrite E2. reflexivity.
  - apply (ord_eq c ok) in E1. subst. rewrite E2. reflexivity.
  - apply (ord_eq c ok) in E2. subst. rewrite E1. reflexivity.
  - rewrite (ord_trans c ok x y z E1 E2). reflexivity.
Qed.

End OrderFacts.

(** ** Stable sorting *)

Lemma last_error_none {A} (l : list A) : last_error l = None <-> l = [].
Proof.
  induction l as [|x [|y l] IH]; simpl; [tauto | split; discriminate |].
  simpl in IH. rewrite IH. split; discriminate.
Qed.

Lemma last_error_In {A} (l : list A) (z : A) : last_error l = Some z -> In z l.
Proof.
  induction l as [|x [|y l] IH]; simpl; [discriminate | |].
  - intros H. injection H as <-. left. reflexivity.
  - intros H. right. apply IH. exact H.
Qed.

Section SortFacts.
Context {A : Type} (leb : A -> A -> bool).

Lemma insert_row_perm (x : A) (l : list A) : Permutation (insert_row leb x l) (x :: l).
Proof.
  induction l as [|y l IH]; simpl.
  - apply Permutation_refl.
  - destruct (leb x y).
    + apply Permutation_refl.
    + eapply perm_trans; [apply perm_skip, IH | apply perm_swap].
Qed.

Lemma sort_values_perm (l : list A) : Permutation (sort_values leb l) l.
Proof.
  induction l as [|x l IH]; simpl.
  - apply perm_nil.
  - eapply perm_trans; [apply insert_row_perm | apply perm_skip, IH].
Qed.

Lemma sort_values_In (l : list A) (x : A) : In x (sort_values leb l) <-> In x l.
Proof.
  split; apply Permutation_in;
    [apply sort_values_perm | apply Permutation_sym, sort_values_perm].
Qed.

Lemma hd_insert_row (x : A) (l : list A) :
  hd_error (insert_row leb x l) =
  match hd_error l with
  | None => Some x
  | Some y => if leb x y then Some x else Some y
  end.
Proof. destruct l as [|y l]; simpl; [reflexivity | destruct (leb x y); reflexivity]. Qed.

Lemma hd_sort_values (l : list A) : hd_error (sort_values leb l) = pick_first leb l.
Proof.
  induction l as [|x l IH]; simpl; [reflexivity |].
  rewrite hd_insert_row, IH. reflexivity.
Qed.

Hypothesis leb_total : forall x y, leb x y = false -> leb y x = true.
Hypothesis leb_trans : forall x y z, leb x y = true -> leb y z = true -> leb x z = true.

Let le (x y : A) : Prop := leb x y = true.

Lemma leb_refl (x : A) : leb x x = true.
Proof. destruct (leb x x) eqn:R; [reflexivity | rewrite <- R; exact (leb_total _ _ R)]. Qed.

Lemma insert_row_sorted (x : A) (l : list A) :
  StronglySorted le l -> StronglySorted le (insert_row leb x l).
Proof.
  induction l as [|y l IH]; simpl; intros Hs.
  - constructor; [constructor | constructor].
  - inversion Hs as [|? ? Hs' Hall]; subst. destruct (leb x y) eqn:E.
    + constructor; [assumption |]. constructor; [exact E |].
      eapply Forall_impl; [| exact Hall]. intros z Hz. exact (leb_trans _ _ _ E Hz).
    + constructor; [apply IH; assumption |].
      apply (Permutation_Forall (Permutation_sym (insert_row_perm x l))).
      constructor; [apply leb_total; exact E | assumption].
Qed.

Lemma sort_values_sorted (l : list A) : StronglySorted le (sort_values leb l).
Proof.
  induction l as [|x l IH]; simpl; [constructor | apply insert_row_sorted, IH].
Qed.

Lemma insert_row_front (x : A) (l : list A) :
  Forall (le x) l -> insert_row leb x l = x :: l.
Proof.
  intros H. destruct l as [|y l]; simpl; [reflexivity |].
  inversion H as [|? ? Hy _]; subst. unfold le in Hy. rewrite Hy. reflexivity.
Qed.

Lemma filter_insert_row (f : A -> bool) (x : A) (l : list A) :
  StronglySorted le l ->
  filter f (insert_row leb x l) =
  if f x then insert_row leb x (filter f l) else filter f l.
Proof.
  induction l as [|y l IH]; intros Hs.
  - simpl. destruct (f x); reflexivity.
  - inversion Hs as [|? ? Hs' Hall]; subst. simpl insert_row.
    destruct (leb x y) eqn:E.
    + change (filter f (x :: y :: l)) with
        (if f x then x :: filter f (y :: l) else filter f (y :: l)).
      destruct (f x); [| reflexivity].
      symmetry. apply insert_row_front.
      apply Forall_forall. intros z Hz. apply filter_In in Hz. destruct Hz as [Hz _].
      destruct Hz as [<- | Hz]; [exact E |].
      rewrite Forall_forall in Hall. exact (leb_trans _ _ _ E (Hall z Hz)).
    + simpl. rewrite (IH Hs'). destruct (f x), (f y); simpl; try reflexivity.
      rewrite E. reflexivity.
Qed.

Lemma filter_sort_values (f : A -> bool) (l : list A) :
  filter f (sort_values leb l) = sort_values leb (filter f l).
Proof.
  induction l as [|x l IH]; simpl; [reflexivity |].
  rewrite filter_insert_row by apply sort_values_sorted.
  rewrite IH. destruct (f x); reflexivity.
Qed.

Lemma last_insert_row (x : A) (l : list A) :
  StronglySorted le l ->
  last_error (insert_row leb x l) =
  match last_error l with
  | None => Some x
  | Some y => if leb x y then Some y else Some x
  end.
Proof.
  induction l as [|y l IH]; intros Hs; [reflexivity |].
  inversion Hs as [|? ? Hs' Hall]; subst.
  simpl insert_row. destruct (leb x y) eqn:E.
  - change (last_error (x :: y :: l)) with (last_error (y :: l)).
    destruct (last_error (y :: l)) as [z|] eqn:L;
      [| apply last_error_none in L; discriminate].
    assert (Hz : le y z).
    { apply last_error_In in L. destruct L as [<- | L].
      - apply leb_refl.
      - rewrite Forall_forall in Hall. apply Hall, L. }
    rewrite (leb_trans _ _ _ E Hz). reflexivity.
  - specialize (IH Hs'). destruct l as [|w l].
    + simpl. rewrite E. reflexivity.
    + assert (Hne : exists a r, insert_row leb x (w :: l) = a :: r).
      { simpl. destruct (leb x w); eauto. }
      destruct Hne as (a & r & Hne). rewrite Hne in *.
      change (last_error (y :: a :: r)) with (last_error (a :: r)).
      change (last_error (y :: w :: l)) with (last_error (w :: l)).
      exact IH.
Qed.

Lemma last_sort_values (l : list A) : last_error (sort_values leb l) = pick_last leb l.
Proof.
  induction l as [|x l IH]; simpl; [reflexivity |].
  rewrite last_insert_row by apply sort_values_sorted. rewrite IH. reflexivity.
Qed.

Lemma pick_first_none (l : list A) : pick_first leb l = None <-> l = [].
Proof.
  destruct l as [|x l]; simpl; [tauto |].
  destruct (pick_first leb l) as [y|]; [destruct (leb x y) |]; split; discriminate.
Qed.

Lemma pick_first_least (l : list A) (e : A) :
  pick_first leb l = Some e -> In e l /\ forall x, In x l -> le e x.
Proof.
  revert e. induction l as [|x l IH]; simpl; intros e H; [discriminate |].
  pose proof leb_refl as Hrefl.
  destruct (pick_first leb l) as [y|] eqn:P.
  - destruct (IH y eq_refl) as [Hy Hmin]. destruct (leb x y) eqn:E; injection H as <-.
    + split; [left; reflexivity |]. intros z [<- | Hz]; [apply Hrefl |].
      exact (leb_trans _ _ _ E (Hmin z Hz)).
    + split; [right; exact Hy |]. intros z [<- | Hz]; [exact (leb_total _ _ E) |].
      exact (Hmin z Hz).
  - injection H as <-. apply pick_first_none in P. subst. split; [left; reflexivity |].
    intros z [<- | []]. apply Hrefl.
Qed.

Lemma pick_last_none (l : list A) : pick_last leb l = None <-> l = [].
Proof.
  destruct l as [|x l]; simpl; [tauto |].
  destruct (pick_last leb l) as [y|]; [destruct (leb x y) |]; split; discriminate.
Qed.

Lemma pick_last_split (l : list A) (e : A) :
  pick_last leb l = Some e ->
  exists l1 l2, l = l1 ++ e :: l2 /\
    (forall x, In x l1 -> leb x e = true) /\ (forall x, In x l2 -> leb e x = false).
Proof.
  revert e. induction l as [|x l IH]; simpl; intros e H; [discriminate |].
  destruct (pick_last leb l) as [y|] eqn:P.
  - destruct (IH y eq_refl) as (l1 & l2 & -> & H1 & H2).
    destruct (leb x y) eqn:E; injection H as <-.
    + exists (x :: l1), l2. split; [reflexivity |]. split; [| exact H2].
      intros z [<- | Hz]; [exact E | exact (H1 z Hz)].
    + exists [], (l1 ++ y :: l2). split; [reflexivity |]. split; [intros z [] |].
      intros z Hz. destruct (leb x z) eqn:Exz; [| reflexivity].
      rewrite <- E. symmetry. apply (leb_trans _ _ _ Exz).
      apply in_app_or in Hz. destruct Hz as [Hz | [<- | Hz]].
      * exact (H1 z Hz).
      * apply leb_refl.
      * apply leb_total. exact (H2 z Hz).
  - injection H as <-. apply pick_last_none in P. subst.
    exists [], []. split; [reflexivity |]. split; intros z [].
Qed.

End SortFacts.

(** ** Grouping *)

Lemma dropna_keys_In {A K} (key : A -> option K) (l : list A) (k : K) :
  In k (dropna_keys key l) <-> exists x, In x l /\ key x = Some k.
Proof.
  induction l as [|x l IH]; simpl.
  - split; [intros [] | intros (x & [] & _)].
  - destruct (key x) as [k'|] eqn:E; simpl; rewrite IH; split.
    + intros [<- | (y & Hy & Hk)]; eauto.
    + intros (y & [<- | Hy] & Hk); [left; congruence | right; eauto].
    + intros (y & Hy & Hk); eauto.
    + intros (y & [<- | Hy] & Hk); [congruence | eauto].
Qed.

Lemma assoc_filter_hd {K V} (eqb : K -> K -> bool) (k : K) (l : list (K * V)) :
  assoc eqb k l = option_map snd (hd_error (filter (fun r => eqb (fst r) k) l)).
Proof.
  induction l as [|[k' v] l IH]; simpl; [reflexivity |].
  destruct (eqb k' k); [reflexivity | exact IH].
Qed.

Section GroupFacts.
Context {K : Type} (c : K -> K -> comparison) (ok : OrdOK c).

Lemma dedup_In (l : list K) (k : K) : In k (dedup (eqb_of c) l) <-> In k l.
Proof.
  induction l as [|x l IH]; simpl; [tauto |].
  rewrite filter_In, IH, negb_true_iff, (eqb_of_false c ok).
  split; [tauto |]. intros [-> | H]; [auto |].
  destruct (eqb_of c x k) eqn:E.
  - apply (eqb_of_true c ok) in E. auto.
  - apply (eqb_of_false c ok) in E. auto.
Qed.

Lemma dedup_NoDup (l : list K) : NoDup (dedup (eqb_of c) l).
Proof.
  induction l as [|x l IH]; simpl; constructor.
  - rewrite filter_In, negb_true_iff, (eqb_of_false c ok). tauto.
  - apply NoDup_filter, IH.
Qed.

Lemma group_keys_In {A} (key : A -> option K) (l : list A) (k : K) :
  In k (group_keys c key l) <-> exists x, In x l /\ key x = Some k.
Proof.
  unfold group_keys. rewrite sort_values_In, dedup_In. apply dropna_keys_In.
Qed.

Lemma group_keys_NoDup {A} (key : A -> option K) (l : list A) :
  NoDup (group_keys c key l).
Proof.
  unfold group_keys.
  eapply Permutation_NoDup; [apply Permutation_sym, sort_values_perm | apply dedup_NoDup].
Qed.

Lemma has_key_true {A} (key : A -> option K) (k : K) (x : A) :
  has_key c key k x = true <-> key x = Some k.
Proof.
  unfold has_key. destruct (key x) as [k'|]; [| split; discriminate].
  rewrite (eqb_of_true c ok). split; congruence.
Qed.

Lemma group_nonempty {A} (key : A -> option K) (l : list A) (k : K) :
  filter (has_key c key k) l = [] <-> ~ In k (group_keys c key l).
Proof.
  rewrite group_keys_In. split.
  - intros H (x & Hx & Hk).
    assert (Hin : In x (filter (has_key c key k) l)).
    { apply filter_In. split; [exact Hx | apply has_key_true; exact Hk]. }
    rewrite H in Hin. exact Hin.
  - intros H. destruct (filter (has_key c key k) l) as [|x r] eqn:E; [reflexivity |].
    exfalso. apply H. exists x.
    assert (Hin : In x (filter (has_key c key k) l)) by (rewrite E; left; reflexivity).
    apply filter_In in Hin. destruct Hin as [Hx Hk]. apply has_key_true in Hk. auto.
Qed.

Lemma assoc_first_groups {A V} (key : A -> option K) (val : A -> V) (l : list A)
  (k : K) (ks : list K) :
  assoc (eqb_of c) k
    (flat_map (fun g : K * list A =>
                 match snd g with x :: _ => [(fst g, val x)] | [] => [] end)
       (map (fun k' => (k', filter (has_key c key k') l)) ks)) =
  if existsb (fun k' => eqb_of c k' k) ks
  then option_map val (hd_error (filter (has_key c key k) l))
  else None.
Proof.
  induction ks as [|k' ks IH]; simpl; [reflexivity |].
  destruct (eqb_of c k' k) eqn:E; simpl.
  - apply (eqb_of_true c ok) in E. subst k'.
    destruct (filter (has_key c key k) l) as [|x r] eqn:F; simpl.
    + rewrite IH. destruct (existsb _ ks); reflexivity.
    + rewrite (eqb_of_refl c ok). reflexivity.
  - destruct (filter (has_key c key k') l) as [|x r]; simpl; [exact IH |].
    rewrite E. exact IH.
Qed.

Lemma assoc_groupby_first {A V} (key : A -> option K) (val : A -> V) (l : list A) (k : K) :
  assoc (eqb_of c) k (groupby_first c key val l) =
  option_map val (hd_error (filter (has_key c key k) l)).
Proof.
  unfold groupby_first, groupby. rewrite assoc_first_groups.
  destruct (existsb (fun k' => eqb_of c k' k) (group_keys c key l)) eqn:E; [reflexivity |].
  assert (H : filter (has_key c key k) l = []).
  { apply group_nonempty. intros Hin.
    assert (Hex : existsb (fun k' => eqb_of c k' k) (group_keys c key l) = true).
    { apply existsb_exists. exists k. split; [exact Hin | apply (eqb_of_refl c ok)]. }
    congruence. }
  rewrite H. reflexivity.
Qed.

Lemma groupby_first_keys {A V} (key : A -> option K) (val : A -> V) (l : list A) :
  map fst (groupby_first c key val l) = group_keys c key l.
Proof.
  unfold groupby_first, groupby.
  assert (H : forall ks, (forall k, In k ks -> In k (group_keys c key l)) ->
    map fst (flat_map (fun g : K * list A =>
                 match snd g with x :: _ => [(fst g, val x)] | [] => [] end)
       (map (fun k' => (k', filter (has_key c key k') l)) ks)) = ks).
  { induction ks as [|k ks IH]; intros Hks; simpl; [reflexivity |].
    destruct (filter (has_key c key k) l) as [|x r] eqn:F.
    - exfalso. apply group_nonempty in F. apply F, Hks. left. reflexivity.
    - simpl. f_equal. apply IH. intros k' Hk'. apply Hks. right. exact Hk'. }
  apply H. auto.
Qed.

End GroupFacts.

(** ** The pivot (section 3) *)

Lemma key4_some (e : Event) (k : Key3) (s : pystr) :
  key4 e = Some (k, s) <-> event_of k e /\ Status e = Some s.
Proof.
  unfold key4, event_of. destruct k as [[d p] v]. simpl.
  destruct (Date e), (Product e), (Plate e), (Status e);
    split; try discriminate; try (intros [(? & ? & ?) ?]; discriminate).
  - intros H. inversion H. auto.
  - intros [(H1 & H2 & H3) H4].
    injection H1 as ->. injection H2 as ->. injection H3 as ->. injection H4 as ->.
    reflexivity.
Qed.

Lemma leb5_total (x y : Event) : leb5 x y = false -> leb5 y x = true.
Proof. apply (leb_of_total cmp5 cmp5_ok). Qed.

Lemma leb5_trans (x y z : Event) : leb5 x y = true -> leb5 y z = true -> leb5 x z = true.
Proof. apply (leb_of_trans cmp5 cmp5_ok). Qed.

Lemma leb5_same_group (x y : Event) (k : Key4) :
  key4 x = Some k -> key4 y = Some k -> leb5 x y = true -> Timestamp x <= Timestamp y.
Proof.
  unfold key4, leb5, leb_of, cmp5, sort_key5, pair_cmp. simpl.
  destruct (Date x) as [dx|], (Product x) as [px|], (Plate x) as [vx|],
    (Status x) as [sx|]; try discriminate.
  destruct (Date y) as [dy|], (Product y) as [py|], (Plate y) as [vy|],
    (Status y) as [sy|]; try discriminate.
  intros Hx Hy. rewrite <- Hx in Hy. inversion Hy; subst. simpl.
  rewrite Z.compare_refl. simpl.
  assert (R : forall s, str_cmp s s = Eq) by (intros s; apply (ord_eq _ str_cmp_ok); reflexivity).
  unfold cell_cmp. simpl. rewrite !R. simpl.
  destruct (Timestamp x ?= Timestamp y) eqn:E; try discriminate; intros _.
  - apply Z.compare_eq_iff in E. rewrite E. apply Z.le_refl.
  - apply Z.compare_lt_iff in E. apply Z.lt_le_incl. exact E.
Qed.

Lemma pivot_values_assoc (action : list Event) (k : Key3) (s : pystr) :
  assoc (eqb_of key4_cmp) (k, s) (pt_values (pivot_table (first_stage action))) =
  option_map Timestamp
    (pick_first leb5 (filter (has_key key4_cmp key4 (k, s)) action)).
Proof.
  unfold pivot_table. simpl.
  rewrite (assoc_groupby_first key4_cmp key4_cmp_ok).
  replace (filter (has_key key4_cmp (fun r : Key4 * Z => Some (fst r)) (k, s)))
    with (filter (fun r : Key4 * Z => eqb_of key4_cmp (fst r) (k, s))) by reflexivity.
  rewrite <- (assoc_filter_hd (eqb_of key4_cmp)).
  unfold first_stage. rewrite (assoc_groupby_first key4_cmp key4_cmp_ok).
  rewrite (filter_sort_values leb5 leb5_total leb5_trans).
  rewrite hd_sort_values. reflexivity.
Qed.

Lemma pivot_values_keys (action : list Event) (k4 : Key4) :
  In k4 (map fst (pt_values (pivot_table (first_stage action)))) <->
  exists e, In e action /\ key4 e = Some k4.
Proof.
  unfold pivot_table. simpl.
  rewrite (groupby_first_keys key4_cmp key4_cmp_ok).
  rewrite (group_keys_In key4_cmp key4_cmp_ok).
  split.
  - intros ([k' t] & Hin & Hk). simpl in Hk. injection Hk as ->.
    apply (in_map fst) in Hin. unfold first_stage in Hin.
    rewrite (groupby_first_keys key4_cmp key4_cmp_ok) in Hin.
    apply (group_keys_In key4_cmp key4_cmp_ok) in Hin.
    destruct Hin as (e & He & Hk). exists e. split; [| exact Hk].
    apply (sort_values_In leb5). exact He.
  - intros (e & He & Hk).
    assert (Hin : In k4 (map fst (first_stage action))).
    { unfold first_stage. rewrite (groupby_first_keys key4_cmp key4_cmp_ok).
      apply (group_keys_In key4_cmp key4_cmp_ok). exists e.
      split; [apply (sort_values_In leb5); exact He | exact Hk]. }
    apply in_map_iff in Hin. destruct Hin as (r & Hr & Hin). exists r.
    split; [exact Hin | simpl; congruence].
Qed.

Lemma wide_column_assoc (action : list Event) (k : Key3) (s : pystr) :
  wide_column (pivot_table (first_stage action)) s k =
  assoc (eqb_of key4_cmp) (k, s) (pt_values (pivot_table (first_stage action))).
Proof.
  unfold wide_column.
  destruct (has_col s (pt_columns (pivot_table (first_stage action)))) eqn:E;
    [reflexivity |].
  destruct (assoc _ _ _) as [t|] eqn:F; [exfalso | reflexivity].
  assert (Hin : In (k, s) (map fst (pt_values (pivot_table (first_stage action))))).
  { clear E. revert F. generalize (pt_values (pivot_table (first_stage action))).
    induction l as [|[k' v] l IH]; simpl; [discriminate |].
    destruct (eqb_of key4_cmp k' (k, s)) eqn:Ek.
    - apply (eqb_of_true key4_cmp key4_cmp_ok) in Ek. auto.
    - auto. }
  assert (Hc : In s (pt_columns (pivot_table (first_stage action)))).
  { unfold pivot_table. simpl. apply (group_keys_In str_cmp str_cmp_ok).
    apply in_map_iff in Hin. destruct Hin as (r & Hr & Hin).
    exists r. split; [exact Hin | simpl; rewrite Hr; reflexivity]. }
  assert (Ht : has_col s (pt_columns (pivot_table (first_stage action))) = true).
  { apply existsb_exists. exists s. split; [exact Hc |].
    apply (eqb_of_refl str_cmp str_cmp_ok). }
  congruence.
Qed.

Lemma wide_column_earliest (action : list Event) (k : Key3) (s : pystr) :
  is_earliest action k s (wide_column (pivot_table (first_stage action)) s k).
Proof.
  rewrite wide_column_assoc, pivot_values_assoc.
  destruct (pick_first leb5 (filter (has_key key4_cmp key4 (k, s)) action)) as [e|] eqn:P;
    simpl.
  - destruct (pick_first_least leb5 leb5_total leb5_trans _ _ P) as [Hin Hmin].
    apply filter_In in Hin. destruct Hin as [Hin Hk].
    apply (has_key_true key4_cmp key4_cmp_ok) in Hk.
    split.
    + exists e. apply key4_some in Hk. tauto.
    + intros x Hx Hev Hs.
      assert (Hkx : key4 x = Some (k, s)) by (apply key4_some; auto).
      apply (leb5_same_group e x (k, s) Hk Hkx). apply Hmin.
      apply filter_In. split; [exact Hx |].
      apply (has_key_true key4_cmp key4_cmp_ok). exact Hkx.
  - apply pick_first_none in P. intros x Hx Hev Hs.
    assert (Hin : In x (filter (has_key key4_cmp key4 (k, s)) action)).
    { apply filter_In. split; [exact Hx |].
      apply (has_key_true key4_cmp key4_cmp_ok). apply key4_some. auto. }
    rewrite P in Hin. exact Hin.
Qed.

Lemma wide_keys (action : list Event) :
  map row_key (wide action) = pt_index (pivot_table (first_stage action)).
Proof.
  unfold wide, wide_pivot. rewrite map_map.
  generalize (pivot_table (first_stage action)). intros pt.
  induction (pt_index pt) as [|[[d p] v] l IH]; simpl; [reflexivity |].
  f_equal. exact IH.
Qed.

Lemma pt_index_In (action : list Event) (k : Key3) :
  In k (pt_index (pivot_table (first_stage action))) <->
  exists e, In e action /\ event_of k e /\ Status e <> None.
Proof.
  assert (H : In k (pt_index (pivot_table (first_stage action))) <->
              exists s, In (k, s) (map fst (pt_values (pivot_table (first_stage action))))).
  { unfold pivot_table at 1. simpl pt_index.
    rewrite (group_keys_In key3_cmp key3_cmp_ok). split.
    - intros ([[k' s] t] & Hin & Hk). simpl in Hk. injection Hk as ->.
      exists s. apply (in_map fst) in Hin. exact Hin.
    - intros (s & Hin). apply in_map_iff in Hin. destruct Hin as (r & Hr & Hin).
      exists r. split; [exact Hin | simpl; rewrite Hr; reflexivity]. }
  rewrite H. split.
  - intros (s & Hin). apply pivot_values_keys in Hin. destruct Hin as (e & He & Hk).
    apply key4_some in Hk. exists e. intuition congruence.
  - intros (e & He & Hev & Hs). destruct (Status e) as [s|] eqn:Es; [| congruence].
    exists s. apply pivot_values_keys. exists e. split; [exact He |].
    apply key4_some. auto.
Qed.

(** ** Durations (section 4) *)

Lemma minutes_sign (d : Z) : Qle_bool 0 (total_seconds d / 60) = (0 <=? d).
Proof.
  unfold total_seconds, ns_per_second, Qle_bool, Qdiv, Qmult, Qinv, inject_Z. simpl.
  rewrite !Z.mul_1_r. reflexivity.
Qed.

Lemma minutes_value (e s : Z) :
  (total_seconds (e - s) / 60 == elapsed_minutes e s)%Q.
Proof.
  unfold elapsed_minutes, total_seconds, ns_per_second.
  unfold Qeq, Qdiv, Qmult, Qinv, Qminus, Qplus, Qopp, inject_Z. simpl. lia.
Qed.

Lemma drop_negative_minutes (finish start : option Z) :
  is_duration finish start (drop_negative (minutes_between finish start)) /\
  never_negative (drop_negative (minutes_between finish start)).
Proof.
  destruct finish as [e|], start as [s|]; simpl; auto.
  unfold Qlt_bool. rewrite minutes_sign.
  destruct (Z.leb_spec 0 (e - s)) as [H | H]; simpl.
  - destruct (Z.ltb_spec e s) as [H' | H']; [lia |]. split.
    + eexists. split; [reflexivity | apply minutes_value].
    + apply Qle_bool_iff. rewrite minutes_sign. apply Z.leb_le. exact H.
  - destruct (Z.ltb_spec e s) as [H' | H']; [auto | lia].
Qed.

(** C2. Each of the three durations of an interval record is absent when an
    endpoint is absent, is the elapsed minutes (end minus start) when both are
    present and the end does not precede the start, and is absent when the
    difference is negative; hence no duration of the output is negative. *)
Theorem C2_durations (r : PivotRow) :
  (is_duration (Start_Loading r) (Waiting r) (Waiting_Time_min (durations r)) /\
   is_duration (Complete_Loading r) (Start_Loading r) (Loading_Time_min (durations r)) /\
   is_duration (Complete_Loading r) (Waiting r) (Total_Time_min (durations r))) /\
  (never_negative (Waiting_Time_min (durations r)) /\
   never_negative (Loading_Time_min (durations r)) /\
   never_negative (Total_Time_min (durations r))).
Proof.
  unfold durations. simpl.
  pose proof (drop_negative_minutes (Start_Loading r) (Waiting r)) as [H1 H1'].
  pose proof (drop_negative_minutes (Complete_Loading r) (Start_Loading r)) as [H2 H2'].
  pose proof (drop_negative_minutes (Complete_Loading r) (Waiting r)) as [H3 H3'].
  repeat split; assumption.
Qed.

Lemma zero_minutes_kept (t : Z) :
  exists q, drop_negative (minutes_between (Some t) (Some t)) = Some q /\ (q == 0)%Q.
Proof.
  simpl. unfold Qlt_bool. rewrite minutes_sign.
  replace (0 <=? t - t) with true by (symmetry; apply Z.leb_le; lia). simpl.
  eexists. split; [reflexivity |].
  rewrite minutes_value. unfold elapsed_minutes, Qeq. simpl. lia.
Qed.

(** C10. The negative-duration guard removes strictly negative values only:
    when the two endpoints of a duration pair are present and equal, the
    duration is kept, as zero minutes. *)
Theorem C10_zero_duration_kept (r : PivotRow) (t : Z) :
  (Waiting r = Some t -> Start_Loading r = Some t ->
   exists q, Waiting_Time_min (durations r) = Some q /\ (q == 0)%Q) /\
  (Start_Loading r = Some t -> Complete_Loading r = Some t ->
   exists q, Loading_Time_min (durations r) = Some q /\ (q == 0)%Q) /\
  (Waiting r = Some t -> Complete_Loading r = Some t ->
   exists q, Total_Time_min (durations r) = Some q /\ (q == 0)%Q).
Proof.
  unfold durations. simpl.
  repeat split; intros -> ->; apply zero_minutes_kept.
Qed.

Lemma C10_zero_duration_kept_witness :
  (exists q, Waiting_Time_min (durations instant_interval) = Some q /\ (q == 0)%Q) /\
  (exists q, Loading_Time_min (durations instant_interval) = Some q /\ (q == 0)%Q) /\
  (exists q, Total_Time_min (durations instant_interval) = Some q /\ (q == 0)%Q).
Proof.
  destruct (C10_zero_duration_kept instant_interval 1000) as (H1 & H2 & H3).
  split; [apply H1; reflexivity | split; [apply H2; reflexivity | apply H3; reflexivity]].
Defined.

Lemma has_col_In (c : pystr) (cols : list pystr) : has_col c cols = true <-> In c cols.
Proof.
  unfold has_col. rewrite existsb_exists. split.
  - intros (x & Hx & E). apply (eqb_of_true str_cmp str_cmp_ok) in E. subst. exact Hx.
  - intros H. exists c. split; [exact H | apply (eqb_of_refl str_cmp str_cmp_ok)].
Qed.

(** The records of the pivot: one per (date, product, vehicle) key that has
    an event whose status cell is not missing, without duplicate; in each
    record the field of each known status is the earliest timestamp of the
    key's events with that status, and is absent when the key has no such
    event. *)
Lemma wide_records (action : list Event) :
  NoDup (map row_key (wide action)) /\
  (forall k, In k (map row_key (wide action)) <->
             exists e, In e action /\ event_of k e /\ Status e <> None) /\
  (forall r, In r (wide action) ->
     is_earliest action (row_key r) (lit "Waiting") (Waiting (interval r)) /\
     is_earliest action (row_key r) (lit "Start Loading") (Start_Loading (interval r)) /\
     is_earliest action (row_key r) (lit "Complete Loading")
       (Complete_Loading (interval r))).
Proof.
  split; [| split].
  - rewrite wide_keys. unfold pivot_table. simpl.
    apply (group_keys_NoDup key3_cmp key3_cmp_ok).
  - intros k. rewrite wide_keys. apply pt_index_In.
  - intros r Hr. unfold wide, wide_pivot in Hr. rewrite map_map in Hr.
    apply in_map_iff in Hr. destruct Hr as ([[d p] v] & <- & _).
    unfold row_key. simpl. repeat split; apply wide_column_earliest.
Qed.

(** The status columns of the pivot: the labels of the events that have a
    date, a product and a vehicle. *)
Lemma pt_columns_In (action : list Event) (s : pystr) :
  In s (pt_columns (pivot_table (first_stage action))) <->
  exists e, In e action /\ (exists k, event_of k e) /\ Status e = Some s.
Proof.
  assert (H : In s (pt_columns (pivot_table (first_stage action))) <->
              exists k, In (k, s) (map fst (pt_values (pivot_table (first_stage action))))).
  { unfold pivot_table at 1. simpl pt_columns.
    rewrite (group_keys_In str_cmp str_cmp_ok). split.
    - intros ([[k s'] t] & Hin & Hk). simpl in Hk. injection Hk as ->.
      exists k. apply (in_map fst) in Hin. exact Hin.
    - intros (k & Hin). apply in_map_iff in Hin. destruct Hin as (r & Hr & Hin).
      exists r. split; [exact Hin | simpl; rewrite Hr; reflexivity]. }
  rewrite H. split.
  - intros (k & Hin). apply pivot_values_keys in Hin. destruct Hin as (e & He & Hk).
    apply key4_some in Hk. exists e. split; [exact He |].
    split; [exists k; tauto | tauto].
  - intros (e & He & (k & Hev) & Hs). exists k. apply pivot_values_keys.
    exists e. split; [exact He |]. apply key4_some. auto.
Qed.

(** C1. The code loses a key that is present in the input. In a feed of
    three trucks of one day the first has an empty status cell, the second
    waits and the third carries the label "Unloading". [load_action] returns
    the three events, each with its date, product and vehicle, and
    [reset_index] does not fail; yet the pivot has records for the second
    and the third truck only, the third with three absent fields, while the
    live view of the same events keeps the three vehicles. On a single
    event whose label is "Plate" the pivot yields no record at all:
    [reset_index] fails. *)
Theorem C1_key_without_record :
  load_action sample_lower sample_isspace sample_to_datetime three_trucks_feed =
    Returned three_trucks_action /\
  (forall e, In e three_trucks_action ->
     event_of (65, lit "Cement", lit "ABC-1") e \/
     event_of (65, lit "Cement", lit "ABC-2") e \/
     event_of (65, lit "Cement", lit "ABC-3") e) /\
  (exists e, In e three_trucks_action /\ event_of (65, lit "Cement", lit "ABC-1") e) /\
  wide_frame three_trucks_action = WideFrame (wide three_trucks_action) /\
  map interval (wide three_trucks_action) =
    [ {| w_Date := 65; w_Product := lit "Cement"; w_Plate := lit "ABC-2";
         Waiting := Some (65 * ns_per_day); Start_Loading := None;
         Complete_Loading := None |};
      {| w_Date := 65; w_Product := lit "Cement"; w_Plate := lit "ABC-3";
         Waiting := None; Start_Loading := None; Complete_Loading := None |} ] /\
  ~ In (65, lit "Cement", lit "ABC-1") (map row_key (wide three_trucks_action)) /\
  map Plate (latest three_trucks_action 65) =
    [Some (lit "ABC-1"); Some (lit "ABC-2"); Some (lit "ABC-3")] /\
  (exists e, In e status_plate_action /\ event_of (65, lit "Cement", lit "ABC-1") e) /\
  wide_frame status_plate_action = WideError (lit "cannot insert Plate, already exists").
Proof.
  split; [vm_compute; reflexivity |].
  split.
  { intros e [<- | [<- | [<- | []]]]; [left | right; left | right; right];
      repeat split. }
  split.
  { eexists. split; [left; reflexivity |]. repeat split. }
  split; [vm_compute; reflexivity |].
  split; [vm_compute; reflexivity |].
  split.
  { vm_compute. intros [H | [H | []]]; discriminate H. }
  split; [vm_compute; reflexivity |].
  split.
  { eexists. split; [left; reflexivity |]. repeat split. }
  vm_compute. reflexivity.
Qed.

(** X23. When every event carries a status and [reset_index] does not fail,
    the pivot yields exactly one record per (date, product, vehicle) key
    present in the input, none twice and none dropped; in each record the
    field of each known status is the earliest timestamp of the key's events
    with that status, and is absent when the key has no such event. *)
Theorem interval_reconstruction (action : list Event) (w : list WideRow) :
  (forall e, In e action -> Status e <> None) ->
  wide_frame action = WideFrame w ->
  NoDup (map row_key w) /\
  (forall k, In k (map row_key w) <-> exists e, In e action /\ event_of k e) /\
  (forall r, In r w ->
     is_earliest action (row_key r) (lit "Waiting") (Waiting (interval r)) /\
     is_earliest action (row_key r) (lit "Start Loading") (Start_Loading (interval r)) /\
     is_earliest action (row_key r) (lit "Complete Loading")
       (Complete_Loading (interval r))).
Proof.
  intros Hstatus Hw. unfold wide_frame in Hw.
  destruct (reset_index_collision (pivot_table (first_stage action))); [discriminate |].
  injection Hw as <-.
  destruct (wide_records action) as (Hnd & Hkeys & Hfields).
  split; [exact Hnd |]. split; [| exact Hfields].
  intros k. rewrite Hkeys. split.
  - intros (e & He & Hev & _). exists e. auto.
  - intros (e & He & Hev). exists e. auto.
Qed.

Lemma interval_reconstruction_witness :
  NoDup (map row_key (wide full_cycle)) /\
  (forall k, In k (map row_key (wide full_cycle)) <->
             exists e, In e full_cycle /\ event_of k e) /\
  (forall r, In r (wide full_cycle) ->
     is_earliest full_cycle (row_key r) (lit "Waiting") (Waiting (interval r)) /\
     is_earliest full_cycle (row_key r) (lit "Start Loading") (Start_Loading (interval r)) /\
     is_earliest full_cycle (row_key r) (lit "Complete Loading")
       (Complete_Loading (interval r))).
Proof.
  apply (interval_reconstruction full_cycle (wide full_cycle)).
  - intros e He. vm_compute in He.
    repeat (destruct He as [<- | He]; [discriminate |]). destruct He.
  - vm_compute. reflexivity.
Defined.

(** X24. [reset_index] at line 68 fails, and the pivot yields no record,
    exactly when some event with a date, a product and a vehicle carries
    the label "Date", "Product" or "Plate": the name of an index column. *)
Theorem reset_index_raises (action : list Event) :
  (exists msg, wide_frame action = WideError msg) <->
  (exists e name, In e action /\ (exists k, event_of k e) /\
                  In name [lit "Date"; lit "Product"; lit "Plate"] /\
                  Status e = Some name).
Proof.
  unfold wide_frame, reset_index_collision. split.
  - intros (msg & H).
    destruct (find _ index_levels_reversed) as [name|] eqn:F; [| discriminate].
    apply find_some in F. destruct F as [Hname Hcol].
    apply has_col_In in Hcol. apply pt_columns_In in Hcol.
    destruct Hcol as (e & He & Hk & Hs). exists e, name.
    repeat split; auto.
    unfold index_levels_reversed in Hname. simpl in Hname. simpl. tauto.
  - intros (e & name & He & Hk & Hname & Hs).
    destruct (find _ index_levels_reversed) as [n|] eqn:F; [eexists; reflexivity |].
    exfalso.
    assert (Hin : In name index_levels_reversed)
      by (unfold index_levels_reversed; simpl in *; tauto).
    pose proof (find_none _ _ F name Hin) as Hf. cbv beta in Hf.
    assert (Hc : has_col name (pt_columns (pivot_table (first_stage action))) = true).
    { apply has_col_In. apply pt_columns_In. exists e. auto. }
    rewrite Hc in Hf. discriminate Hf.
Qed.

(** ** The latest row per vehicle (section 6) *)

Lemma last_error_cons {A} (x : A) (l : list A) :
  last_error (x :: l) = match last_error l with Some y => Some y | None => Some x end.
Proof.
  destruct l as [|y l]; [reflexivity |].
  change (last_error (x :: y :: l)) with (last_error (y :: l)).
  destruct (last_error (y :: l)) eqn:E; [reflexivity |].
  apply last_error_none in E. discriminate.
Qed.

Lemma filter_filter {A} (f g : A -> bool) (l : list A) :
  filter f (filter g l) = filter (fun x => g x && f x) l.
Proof.
  induction l as [|x l IH]; simpl; [reflexivity |].
  destruct (g x); simpl; [destruct (f x); simpl; rewrite IH |]; auto.
Qed.

Lemma pick_last_In {A} (leb : A -> A -> bool) (l : list A) (e : A) :
  pick_last leb l = Some e -> In e l.
Proof.
  revert e. induction l as [|x l IH]; simpl; intros e H; [discriminate |].
  destruct (pick_last leb l) as [y|].
  - destruct (leb x y); injection H as <-; auto.
  - injection H as <-. auto.
Qed.

Lemma pick_last_ext {A} (leb leb' : A -> A -> bool) (l : list A) :
  (forall x y, In x l -> In y l -> leb x y = leb' x y) ->
  pick_last leb l = pick_last leb' l.
Proof.
  induction l as [|x l IH]; intros H; simpl; [reflexivity |].
  rewrite <- IH by (intros; apply H; right; assumption).
  destruct (pick_last leb l) as [y|] eqn:P; [| reflexivity].
  rewrite (H x y); [reflexivity | left; reflexivity |].
  right. exact (pick_last_In _ _ _ P).
Qed.

Section TailFacts.
Context {A K : Type} (c : K -> K -> comparison) (ok : OrdOK c) (key : A -> option K).

Lemma existsb_has_key (k : K) (l : list A) :
  existsb (has_key c key k) l = true <-> In k (dropna_keys key l).
Proof.
  rewrite existsb_exists, dropna_keys_In.
  split; intros (x & Hx & Hk); exists x; split; auto; apply (has_key_true c ok); exact Hk.
Qed.

Lemma groupby_tail1_keys (l : list A) (k : K) :
  In k (dropna_keys key (groupby_tail1 c key l)) <-> In k (dropna_keys key l).
Proof.
  induction l as [|x l IH]; simpl; [tauto |].
  destruct (key x) as [k'|] eqn:E; [| exact IH].
  destruct (existsb (has_key c key k') l) eqn:X; simpl.
  - apply existsb_has_key in X. rewrite IH. split; [auto |].
    intros [<- | H]; assumption.
  - rewrite E. simpl. rewrite IH. tauto.
Qed.

Lemma groupby_tail1_NoDup (l : list A) : NoDup (dropna_keys key (groupby_tail1 c key l)).
Proof.
  induction l as [|x l IH]; simpl; [constructor |].
  destruct (key x) as [k'|] eqn:E; [| exact IH].
  destruct (existsb (has_key c key k') l) eqn:X; simpl; [exact IH |].
  rewrite E. constructor; [| exact IH].
  rewrite groupby_tail1_keys, <- existsb_has_key. congruence.
Qed.

Lemma groupby_tail1_keyed (l : list A) (x : A) :
  In x (groupby_tail1 c key l) -> key x <> None.
Proof.
  induction l as [|y l IH]; simpl; [intros [] |].
  destruct (key y) as [k'|] eqn:E; [| exact IH].
  destruct (existsb (has_key c key k') l); [exact IH |].
  intros [<- | H]; [congruence | exact (IH H)].
Qed.

Lemma filter_groupby_tail1 (l : list A) (k : K) :
  filter (has_key c key k) (groupby_tail1 c key l) =
  match last_error (filter (has_key c key k) l) with
  | Some x => [x]
  | None => []
  end.
Proof.
  induction l as [|x l IH]; [reflexivity |].
  simpl groupby_tail1. simpl filter.
  destruct (key x) as [k'|] eqn:E.
  - destruct (has_key c key k x) eqn:Hx.
    + assert (k' = k) as -> by
        (apply (has_key_true c ok) in Hx; congruence).
      rewrite last_error_cons.
      destruct (existsb (has_key c key k) l) eqn:X.
      * rewrite IH.
        destruct (last_error (filter (has_key c key k) l)) eqn:L; [reflexivity |].
        exfalso. apply last_error_none in L.
        apply existsb_exists in X. destruct X as (y & Hy & Hk).
        assert (Hin : In y (filter (has_key c key k) l)) by (apply filter_In; auto).
        rewrite L in Hin. exact Hin.
      * simpl. rewrite Hx, IH.
        assert (F : filter (has_key c key k) l = []).
        { destruct (filter (has_key c key k) l) as [|y r] eqn:F; [reflexivity |].
          assert (Hin : In y (filter (has_key c key k) l)) by (rewrite F; left; reflexivity).
          apply filter_In in Hin.
          assert (existsb (has_key c key k) l = true)
            by (apply existsb_exists; exists y; exact Hin).
          congruence. }
        rewrite F. reflexivity.
    + destruct (existsb (has_key c key k') l); [exact IH |].
      simpl. rewrite Hx. exact IH.
  - assert (Hx : has_key c key k x = false) by (unfold has_key; rewrite E; reflexivity).
    rewrite Hx. exact IH.
Qed.

End TailFacts.

Lemma leb_plate_ts_total (x y : Event) : leb_plate_ts x y = false -> leb_plate_ts y x = true.
Proof.
  apply (leb_of_total _ (pair_cmp_ok _ _ cell_cmp_ok Z_compare_ok)).
Qed.

Lemma leb_plate_ts_trans (x y z : Event) :
  leb_plate_ts x y = true -> leb_plate_ts y z = true -> leb_plate_ts x z = true.
Proof.
  apply (leb_of_trans _ (pair_cmp_ok _ _ cell_cmp_ok Z_compare_ok)).
Qed.

Lemma leb_plate_ts_same (x y : Event) (p : pystr) :
  Plate x = Some p -> Plate y = Some p -> leb_plate_ts x y = leb_ts x y.
Proof.
  intros Hx Hy. unfold leb_plate_ts, leb_ts, leb_of, pair_cmp. simpl.
  rewrite Hx, Hy. simpl.
  replace (str_cmp p p) with Eq by (symmetry; apply (ord_eq _ str_cmp_ok); reflexivity).
  simpl. unfold Z.leb. destruct (Timestamp x ?= Timestamp y); reflexivity.
Qed.

Lemma latest_of_plate (action : list Event) (sel_date : Z) (p : pystr) :
  filter (has_key str_cmp Plate p) (latest action sel_date) =
  match latest_event (vehicle_events action sel_date p) with
  | Some e => [e]
  | None => []
  end.
Proof.
  unfold latest. rewrite (filter_groupby_tail1 str_cmp str_cmp_ok).
  rewrite (filter_sort_values _ leb_plate_ts_total leb_plate_ts_trans).
  rewrite (last_sort_values _ leb_plate_ts_total leb_plate_ts_trans).
  rewrite filter_filter. fold (vehicle_events action sel_date p).
  unfold latest_event.
  rewrite (pick_last_ext leb_plate_ts leb_ts); [reflexivity |].
  intros x y Hx Hy. apply (leb_plate_ts_same x y p).
  - apply filter_In in Hx. destruct Hx as [_ Hx]. apply andb_true_iff in Hx.
    apply (has_key_true str_cmp str_cmp_ok), Hx.
  - apply filter_In in Hy. destruct Hy as [_ Hy]. apply andb_true_iff in Hy.
    apply (has_key_true str_cmp str_cmp_ok), Hy.
Qed.

Lemma latest_event_is_latest (evs : list Event) (e : Event) :
  latest_event evs = Some e -> is_latest evs e.
Proof.
  intros H. unfold latest_event in H.
  apply pick_last_split in H.
  - destruct H as (l1 & l2 & -> & H1 & H2). exists l1, l2. split; [reflexivity |].
    split; intros x Hx.
    + apply Z.leb_le. exact (H1 x Hx).
    + apply Z.leb_gt. exact (H2 x Hx).
  - unfold leb_ts. intros x y Hxy. apply Z.leb_gt in Hxy. apply Z.leb_le.
    apply Z.lt_le_incl. exact Hxy.
  - unfold leb_ts. intros x y z Hxy Hyz. apply Z.leb_le in Hxy, Hyz. apply Z.leb_le.
    exact (Z.le_trans _ _ _ Hxy Hyz).
Qed.

(** C5. On a target date, the live state of a vehicle is the event with the
    greatest timestamp among the vehicle's events of that date; when several
    share that timestamp, the one that comes last in the input. There is one
    such row per vehicle observed on the date, and none for another vehicle. *)
Theorem C5_latest_event_per_vehicle (action : list Event) (sel_date : Z) (p : pystr) :
  match vehicle_events action sel_date p with
  | [] => filter (has_key str_cmp Plate p) (latest action sel_date) = []
  | _ :: _ =>
      exists e, filter (has_key str_cmp Plate p) (latest action sel_date) = [e] /\
                is_latest (vehicle_events action sel_date p) e
  end.
Proof.
  rewrite latest_of_plate.
  destruct (latest_event (vehicle_events action sel_date p)) as [e|] eqn:L.
  - pose proof (latest_event_is_latest _ _ L) as H.
    destruct (vehicle_events action sel_date p) as [|x r]; [discriminate |].
    exists e. split; [reflexivity | exact H].
  - apply pick_last_none in L. rewrite L. reflexivity.
Qed.

(** ** Live status counts (section 6) *)

Section AssocFacts.
Context {K V : Type} (c : K -> K -> comparison) (ok : OrdOK c).

Lemma eqb_of_sym (x y : K) : eqb_of c x y = eqb_of c y x.
Proof.
  destruct (eqb_of c y x) eqn:E.
  - apply (eqb_of_true c ok) in E. subst. apply (eqb_of_refl c ok).
  - apply (eqb_of_false c ok). apply (eqb_of_false c ok) in E. congruence.
Qed.

Lemma assoc_Some_In (k : K) (v : V) (l : list (K * V)) :
  assoc (eqb_of c) k l = Some v -> In (k, v) l.
Proof.
  induction l as [|[k' v'] l IH]; simpl; [discriminate |].
  destruct (eqb_of c k' k) eqn:E.
  - apply (eqb_of_true c ok) in E. intros H. injection H as <-. subst. auto.
  - auto.
Qed.

Lemma assoc_None_notin (k : K) (l : list (K * V)) :
  assoc (eqb_of c) k l = None -> ~ In k (map fst l).
Proof.
  induction l as [|[k' v'] l IH]; simpl; [tauto |].
  destruct (eqb_of c k' k) eqn:E; [discriminate |].
  apply (eqb_of_false c ok) in E. intros H [H' | H']; [auto | exact (IH H H')].
Qed.

Lemma In_assoc (k : K) (v : V) (l : list (K * V)) :
  NoDup (map fst l) -> In (k, v) l -> assoc (eqb_of c) k l = Some v.
Proof.
  induction l as [|[k' v'] l IH]; simpl; [intros _ [] |].
  intros Hnd [H | H]; inversion Hnd as [|? ? Hnot Hnd']; subst.
  - injection H as -> ->. rewrite (eqb_of_refl c ok). reflexivity.
  - destruct (eqb_of c k' k) eqn:E; [| exact (IH Hnd' H)].
    apply (eqb_of_true c ok) in E. subst. exfalso. apply Hnot.
    apply (in_map fst) in H. exact H.
Qed.

Lemma assoc_perm (k : K) (l l' : list (K * V)) :
  NoDup (map fst l) -> Permutation l l' ->
  assoc (eqb_of c) k l' = assoc (eqb_of c) k l.
Proof.
  intros Hnd Hp.
  assert (Hnd' : NoDup (map fst l')).
  { eapply Permutation_NoDup; [apply Permutation_map, Hp | exact Hnd]. }
  destruct (assoc (eqb_of c) k l) as [v|] eqn:E.
  - apply In_assoc; [exact Hnd' |].
    eapply Permutation_in; [exact Hp | apply assoc_Some_In; exact E].
  - destruct (assoc (eqb_of c) k l') as [v|] eqn:E'; [| reflexivity].
    exfalso. apply assoc_None_notin in E. apply E.
    apply assoc_Some_In in E'. apply (in_map fst) in E'.
    eapply Permutation_in; [apply Permutation_sym, Permutation_map, Hp | exact E'].
Qed.

Lemma assoc_map_keys (f : K -> V) (k : K) (ks : list K) :
  assoc (eqb_of c) k (map (fun k' => (k', f k')) ks) =
  if existsb (fun k' => eqb_of c k' k) ks then Some (f k) else None.
Proof.
  induction ks as [|k' ks IH]; simpl; [reflexivity |].
  destruct (eqb_of c k' k) eqn:E; simpl; [| exact IH].
  apply (eqb_of_true c ok) in E. subst. reflexivity.
Qed.

End AssocFacts.

Lemma filter_length_perm {A} (f : A -> bool) (l l' : list A) :
  Permutation l l' -> List.length (filter f l) = List.length (filter f l').
Proof.
  induction 1 as [| x l l' _ IH | x y l | l l' l'' _ IH1 _ IH2]; simpl.
  - reflexivity.
  - destruct (f x); simpl; congruence.
  - destruct (f x), (f y); reflexivity.
  - congruence.
Qed.

Lemma filter_length_keys {A K} (key : A -> option K) (g : A -> bool) (h : K -> bool)
  (l : list A) :
  (forall x, In x l -> exists k, key x = Some k /\ g x = h k) ->
  List.length (filter g l) = List.length (filter h (dropna_keys key l)).
Proof.
  induction l as [|x l IH]; intros H; simpl; [reflexivity |].
  destruct (H x (or_introl eq_refl)) as (k & Hk & Hg). rewrite Hk, Hg.
  assert (IH' : List.length (filter g l) = List.length (filter h (dropna_keys key l)))
    by (apply IH; intros; apply H; right; assumption).
  simpl. destruct (h k); simpl; rewrite IH'; reflexivity.
Qed.

Lemma value_counts_lookup (s : pystr) (col : list cell) :
  match assoc str_eqb s (value_counts col) with Some n => n | None => O end =
  List.length (filter (str_eqb s) (dropna_col col)).
Proof.
  unfold value_counts, str_eqb.
  set (f := fun k : pystr => List.length (filter (eqb_of str_cmp k) (dropna_col col))).
  set (ks := dedup (eqb_of str_cmp) (dropna_col col)).
  rewrite (assoc_perm str_cmp str_cmp_ok s (map (fun k => (k, f k)) ks)).
  - rewrite (assoc_map_keys str_cmp str_cmp_ok f).
    destruct (existsb (fun k' => eqb_of str_cmp k' s) ks) eqn:E; [reflexivity |].
    unfold f. destruct (filter (eqb_of str_cmp s) (dropna_col col)) as [|y r] eqn:F;
      [reflexivity | exfalso].
    assert (Hin : In y (filter (eqb_of str_cmp s) (dropna_col col)))
      by (rewrite F; left; reflexivity).
    apply filter_In in Hin. destruct Hin as [Hy Hs].
    apply (eqb_of_true str_cmp str_cmp_ok) in Hs. subst y.
    assert (X : existsb (fun k' => eqb_of str_cmp k' s) ks = true).
    { apply existsb_exists. exists s. split.
      - apply (dedup_In str_cmp str_cmp_ok). exact Hy.
      - apply (eqb_of_refl str_cmp str_cmp_ok). }
    congruence.
  - rewrite map_map. simpl. rewrite map_id. apply (dedup_NoDup str_cmp str_cmp_ok).
  - apply Permutation_sym, sort_values_perm.
Qed.

Lemma cell_eqb_some (s' s : pystr) : cell_eqb (Some s') (Some s) = str_eqb s s'.
Proof. exact (eqb_of_sym str_cmp str_cmp_ok s' s). Qed.

Lemma status_occurrences (s : pystr) (l : list Event) :
  List.length (filter (str_eqb s) (dropna_col (map Status l))) =
  List.length (filter (fun e => cell_eqb (Status e) (Some s)) l).
Proof.
  unfold dropna_col. induction l as [|e l IH]; [reflexivity |].
  cbn [map dropna_keys filter]. destruct (Status e) as [s'|].
  - rewrite cell_eqb_some. cbn [filter].
    destruct (str_eqb s s'); cbn [List.length]; rewrite IH; reflexivity.
  - exact IH.
Qed.

Lemma latest_plates (action : list Event) (sel_date : Z) :
  Permutation (dropna_keys Plate (latest action sel_date)) (vehicles action sel_date).
Proof.
  apply NoDup_Permutation.
  - apply (groupby_tail1_NoDup str_cmp str_cmp_ok).
  - apply (dedup_NoDup str_cmp str_cmp_ok).
  - intros p. unfold latest, vehicles, str_eqb.
    rewrite (groupby_tail1_keys str_cmp str_cmp_ok).
    rewrite (dedup_In str_cmp str_cmp_ok).
    rewrite !dropna_keys_In.
    split; intros (x & Hx & Hk); exists x; split; auto;
      apply (sort_values_In leb_plate_ts); exact Hx.
Qed.

Lemma latest_row_status (action : list Event) (sel_date : Z) (e : Event) :
  In e (latest action sel_date) ->
  exists p, Plate e = Some p /\ Status e = live_status action sel_date p.
Proof.
  intros He.
  destruct (Plate e) as [p|] eqn:Hp.
  - exists p. split; [reflexivity |].
    assert (Hin : In e (filter (has_key str_cmp Plate p) (latest action sel_date))).
    { apply filter_In. split; [exact He |].
      apply (has_key_true str_cmp str_cmp_ok). exact Hp. }
    rewrite latest_of_plate in Hin. unfold live_status.
    destruct (latest_event (vehicle_events action sel_date p)) as [e'|].
    + destruct Hin as [<- | []]. reflexivity.
    + destruct Hin.
  - exfalso. unfold latest in He.
    exact (groupby_tail1_keyed str_cmp Plate _ _ He Hp).
Qed.

Lemma count_of_status (action : list Event) (sel_date : Z) (s : pystr) :
  match assoc str_eqb s (value_counts (map Status (latest action sel_date))) with
  | Some n => n
  | None => O
  end = vehicles_in action sel_date s.
Proof.
  rewrite value_counts_lookup, status_occurrences.
  rewrite (filter_length_keys Plate _
             (fun p => cell_eqb (live_status action sel_date p) (Some s))).
  - unfold vehicles_in. apply filter_length_perm, latest_plates.
  - intros e He. destruct (latest_row_status action sel_date e He) as (p & Hp & Hs).
    exists p. split; [exact Hp | rewrite Hs; reflexivity].
Qed.

(** C6. The live counts are exactly the three known statuses, in fixed
    order, each with the number of vehicles whose latest event on the date
    has that status: zero when there is none, and a vehicle whose latest
    status is another label (or missing) is counted in none of them. *)
Theorem C6_status_counts (action : list Event) (sel_date : Z) :
  status_counts action sel_date =
  [ (lit "Waiting", vehicles_in action sel_date (lit "Waiting"));
    (lit "Start Loading", vehicles_in action sel_date (lit "Start Loading"));
    (lit "Complete Loading", vehicles_in action sel_date (lit "Complete Loading")) ].
Proof.
  unfold status_counts, reindex, known_statuses. simpl map.
  rewrite !count_of_status. reflexivity.
Qed.

(** ** The daily summary (section 7) *)

Lemma has_key2_same_group (d : Z) (p : pystr) (r : WideRow) :
  has_key key2_cmp key2 (d, p) r = same_group d p r.
Proof.
  unfold has_key, key2, same_group, key2_cmp, pair_cmp, eqb_of, str_eqb, eqb_of. simpl.
  destruct (Z.eqb_spec (w_Date (interval r)) d) as [-> | Hne].
  - rewrite Z.compare_refl. reflexivity.
  - destruct (Z.compare_spec (w_Date (interval r)) d); [contradiction | |]; reflexivity.
Qed.

Lemma count_all_known {A B} (f : A -> B) (l : list A) :
  count (map (fun x => Some (f x)) l) = List.length l.
Proof.
  unfold count, dropna_col. induction l as [|x l IH]; simpl; [reflexivity |].
  rewrite IH. reflexivity.
Qed.

Lemma dropna_col_known {A} (f : A -> option Q) (g : list A) :
  dropna_col (map f g) = known_values f g.
Proof.
  unfold dropna_col, known_values. induction g as [|r g IH]; simpl; [reflexivity |].
  destruct (f r); simpl; rewrite IH; reflexivity.
Qed.


Lemma known_values_In {A} (f : A -> option Q) (g : list A) (x : Q) :
  In x (known_values f g) <-> exists r, In r g /\ f r = Some x.
Proof.
  unfold known_values. rewrite in_flat_map. split.
  - intros (r & Hr & Hx). exists r. split; [exact Hr |].
    destruct (f r) as [q|]; [| destruct Hx]. destruct Hx as [<- | []]. reflexivity.
  - intros (r & Hr & Hx). exists r. split; [exact Hr |]. rewrite Hx. left. reflexivity.
Qed.




Section SummaryFacts.

Variable float_mean : list Q -> Q.
Variable np_round1 : Q -> Q.

Lemma agg_mean_is_average {A} (f : A -> option Q) (g : list A) :
  is_average float_mean np_round1
    (option_map np_round1 (agg_mean float_mean (map f g))) (known_values f g).
Proof.
  unfold agg_mean. rewrite dropna_col_known.
  destruct (known_values f g); reflexivity.
Qed.

Lemma summary_keys (day : list WideRow) :
  map summary_key (summary float_mean np_round1 day) = group_keys key2_cmp key2 day.
Proof.
  unfold summary, groupby. rewrite !map_map. unfold summary_key. simpl.
  induction (group_keys key2_cmp key2 day) as [|[d p] l IH]; simpl; [reflexivity |].
  rewrite IH. reflexivity.
Qed.

Lemma summary_row_fields (day : list WideRow) (s : SummaryRow) :
  In s (summary float_mean np_round1 day) ->
  let g := group_of day (s_Date s) (s_Product s) in
  (is_average float_mean np_round1 (Avg_Waiting_min s) (known_values Waiting_Time_min g) /\
   is_average float_mean np_round1 (Avg_Loading_min s) (known_values Loading_Time_min g) /\
   is_average float_mean np_round1 (Avg_Total_min s) (known_values Total_Time_min g) /\
   Truck_Count s = List.length g) /\
  Avg_Total_min s = option_map np_round1 (agg_mean float_mean (map Total_Time_min g)) /\
  In (s_Date s, s_Product s) (group_keys key2_cmp key2 day).
Proof.
  intros Hs. unfold summary, groupby in Hs. rewrite map_map in Hs.
  apply in_map_iff in Hs. destruct Hs as ([d p] & <- & Hk). simpl.
  assert (G : filter (has_key key2_cmp key2 (d, p)) day = group_of day d p).
  { unfold group_of. apply filter_ext. intros r. apply has_key2_same_group. }
  rewrite G. split; [| split; [reflexivity | exact Hk]].
  repeat split; try apply agg_mean_is_average. apply count_all_known.
Qed.


End SummaryFacts.


(** Two trucks that waited 23 and 31 seconds: the float64 mean of their
    waiting times is just above 0.45 and the summary shows 0.5. *)
Lemma two_waits_average :
  map Avg_Waiting_min
    (summary b64_mean b64_round1 (df_day (wide two_waits_action) 0 [lit "Cement"])) =
  [Some (4503599627370496 # 9007199254740992)%Q].
Proof. vm_compute. reflexivity. Qed.

(** On these two waiting times the binary64 instance is as accurate as the
    summary theorem asks of the float library, with a relative error of
    2^-50. *)
Lemma two_waits_accuracy :
  let l := known_values Waiting_Time_min
             (df_day (wide two_waits_action) 0 [lit "Cement"]) in
  Qabs_le (b64_mean l - arithmetic_mean l)
    ((1 # 1125899906842624) * arithmetic_mean l) /\
  Qabs_le (b64_round1 (b64_mean l) - b64_mean l)
    ((1 # 20) + (1 # 1125899906842624) * (b64_mean l + 1)).
Proof.
  unfold Qabs_le. repeat split; vm_compute; discriminate.
Qed.

(** ** Status normalization (section 2, lines 47-54) *)

Lemma str_eqb_sym (a b : pystr) : str_eqb a b = str_eqb b a.
Proof. exact (eqb_of_sym str_cmp str_cmp_ok a b). Qed.

Ltac split_label_tests k :=
  repeat match goal with
         | |- context [str_eqb ?a k] => destruct (str_eqb a k)
         end.

Lemma status_map_lookup (k : pystr) : dict_get status_map k = synonym_lookup k.
Proof.
  unfold synonym_lookup, synonym_table, status_map, has_col.
  cbn [dict_get find existsb fst snd option_map].
  rewrite !(str_eqb_sym k). split_label_tests k; reflexivity.
Qed.

Lemma status_map_values (k v : pystr) :
  dict_get status_map k = Some v -> In v known_statuses.
Proof.
  unfold status_map, known_statuses. cbn [dict_get].
  split_label_tests k; intros H; try discriminate; injection H as <-; simpl; auto.
Qed.

Lemma ascii_lower_letter (c : N) : ascii_lower c = lower_letter c.
Proof.
  unfold lower_letter.
  let t := eval vm_compute in (List.combine upper_letters lower_letters) in
  change (List.combine upper_letters lower_letters) with t.
  cbn [letter_lookup].
  repeat match goal with
         | |- context [N.eqb ?u c] =>
             destruct (N.eqb_spec u c) as [<- | ?]; [reflexivity |]
         end.
  unfold ascii_lower.
  replace ((65 <=? c) && (c <=? 90))%N with false; [reflexivity |].
  symmetry. apply andb_false_iff.
  destruct (N.leb_spec 65 c); [right | left; reflexivity].
  apply N.leb_gt. lia.
Qed.

Lemma ascii_isspace_spec (c : N) : ascii_isspace c = true <-> In c ascii_whitespace.
Proof.
  unfold ascii_isspace, ascii_whitespace. split.
  - rewrite orb_true_iff, !andb_true_iff, !N.leb_le. intros H. simpl.
    assert (c = 9 \/ c = 10 \/ c = 11 \/ c = 12 \/ c = 13 \/ c = 28 \/ c = 29 \/ c = 30
            \/ c = 31 \/ c = 32)%N by lia.
    intuition.
  - simpl. intros H.
    repeat (destruct H as [<- | H]; [reflexivity |]). destruct H.
Qed.

Section NormalizerFacts.

Variable uni_lower : pystr -> pystr.
Variable uni_isspace : N -> bool.
Variable to_datetime : list cell -> nat -> option Z.

Local Abbreviation normalize := (normalize_status uni_lower uni_isspace).

Lemma normalize_known (s : pystr) : In s known_statuses -> normalize (Some s) = Some s.
Proof.
  unfold known_statuses. intros [<- | [<- | [<- | []]]]; vm_compute; reflexivity.
Qed.

Lemma normalize_missing : normalize None = None.
Proof. vm_compute. reflexivity. Qed.

Lemma isspace_whitespace (c : N) : isspace uni_isspace c = true <-> whitespace uni_isspace c.
Proof.
  unfold isspace, whitespace, is_ascii. destruct (N.ltb_spec c 128) as [Hlt | Hge].
  - rewrite ascii_isspace_spec. split; [auto |]. intros [H | [H _]]; [exact H | lia].
  - split; [auto |]. intros [H | [_ H]]; [| exact H].
    exfalso. apply ascii_isspace_spec in H. unfold ascii_isspace in H.
    apply orb_true_iff in H. rewrite !andb_true_iff, !N.leb_le in H. lia.
Qed.

Lemma lstrip_split (s : pystr) :
  exists pre, s = pre ++ lstrip uni_isspace s /\
    (forall c, In c pre -> whitespace uni_isspace c) /\
    (forall c, hd_error (lstrip uni_isspace s) = Some c -> ~ whitespace uni_isspace c).
Proof.
  induction s as [|c s IH]; simpl.
  - exists []. split; [reflexivity |]. split; [intros c [] | discriminate].
  - destruct (isspace uni_isspace c) eqn:E.
    + destruct IH as (pre & Hs & Hpre & Hhd). exists (c :: pre).
      split; [simpl; f_equal; exact Hs |]. split; [| exact Hhd].
      intros x [<- | Hx]; [apply isspace_whitespace; exact E | exact (Hpre x Hx)].
    + exists []. split; [reflexivity |]. split; [intros x [] |].
      simpl. intros x Hx. injection Hx as <-. rewrite <- isspace_whitespace. congruence.
Qed.

Lemma last_error_rev {A} (l : list A) : last_error (rev l) = hd_error l.
Proof.
  destruct l as [|x l]; [reflexivity |]. simpl.
  induction (rev l) as [|y r IH]; [reflexivity |].
  simpl. destruct (r ++ [x]) eqn:E; [destruct r; discriminate | exact IH].
Qed.

Lemma str_strip_trimmed (s : pystr) : trimmed uni_isspace s (str_strip uni_isspace s).
Proof.
  unfold str_strip, trimmed.
  destruct (lstrip_split s) as (pre & Hs & Hpre & Hhd).
  destruct (lstrip_split (rev (lstrip uni_isspace s))) as (post & Hr & Hpost & Hlast).
  set (a := lstrip uni_isspace s) in *.
  set (b := lstrip uni_isspace (rev a)) in *.
  assert (Ha : a = rev b ++ rev post).
  { rewrite <- rev_app_distr, <- Hr, rev_involutive. reflexivity. }
  exists pre, (rev post). split; [rewrite Hs, Ha; reflexivity |].
  split; [exact Hpre |]. split; [| split].
  - intros c Hc. apply Hpost. apply in_rev. exact Hc.
  - intros c Hc. apply Hhd. rewrite Ha.
    destruct (rev b) as [|x r]; [discriminate |]. exact Hc.
  - intros c Hc. apply Hlast. rewrite <- last_error_rev. exact Hc.
Qed.

Lemma forallb_is_ascii (t : pystr) :
  forallb is_ascii t = true <-> Forall (fun c => (c < 128)%N) t.
Proof.
  rewrite forallb_forall, Forall_forall. unfold is_ascii.
  split; intros H c Hc; [apply N.ltb_lt | apply N.ltb_lt]; auto.
Qed.

Lemma str_lower_lowered (t : pystr) : lowered uni_lower t (str_lower uni_lower t).
Proof.
  unfold lowered, str_lower. destruct (forallb is_ascii t) eqn:E.
  - split; [| intros H; exfalso; apply H, forallb_is_ascii, E].
    intros _. apply map_ext. exact ascii_lower_letter.
  - split; [| reflexivity]. intros H. apply forallb_is_ascii in H. congruence.
Qed.

(** C4. A status label is trimmed of its leading and trailing whitespace
    and put in lower case, then looked up in the synonym table; a spelling
    of the table gives its canonical status, and a label that matches no
    entry keeps its original text: it is neither rejected nor replaced by a
    known status. *)
Theorem C4_status_normalization (label : pystr) :
  exists t k,
    trimmed uni_isspace label t /\ lowered uni_lower t k /\
    match synonym_lookup k with
    | Some canonical =>
        In canonical known_statuses /\ normalize (Some label) = Some canonical
    | None => normalize (Some label) = Some label
    end.
Proof.
  exists (str_strip uni_isspace label), (str_lower uni_lower (str_strip uni_isspace label)).
  split; [apply str_strip_trimmed |]. split; [apply str_lower_lowered |].
  unfold normalize_status. cbn [astype_str]. rewrite status_map_lookup.
  destruct (synonym_lookup (str_lower uni_lower (str_strip uni_isspace label)))
    as [v|] eqn:E; simpl.
  - split; [| reflexivity].
    rewrite <- status_map_lookup in E. exact (status_map_values _ _ E).
  - reflexivity.
Qed.

(** C9. Normalizing a status that is already normalized changes nothing: the
    three canonical statuses are fixed, and so is a label that matched no
    entry and passed through. *)
Theorem C9_normalization_idempotent (c : cell) :
  normalize (normalize c) = normalize c.
Proof.
  destruct c as [s|]; [| rewrite normalize_missing; apply normalize_missing].
  assert (H : normalize (Some s) =
              match dict_get status_map (str_lower uni_lower (str_strip uni_isspace s)) with
              | Some v => Some v
              | None => Some s
              end).
  { unfold normalize_status. cbn [astype_str]. destruct (dict_get _ _); reflexivity. }
  destruct (dict_get status_map (str_lower uni_lower (str_strip uni_isspace s)))
    as [v|] eqn:E; rewrite H.
  - apply normalize_known. exact (status_map_values _ _ E).
  - exact H.
Qed.

Lemma normalize_examples :
  normalize (Some (lit "  WAITING ")) = Some (lit "Waiting") /\
  normalize (Some (lit "Loading Start")) = Some (lit "Start Loading") /\
  normalize (Some (lit "completed")) = Some (lit "Complete Loading") /\
  normalize (Some (lit "Unloading")) = Some (lit "Unloading").
Proof. repeat split; vm_compute; reflexivity. Qed.

End NormalizerFacts.

(** ** Required columns (section 2, lines 33-42) *)

Lemma str_eqb_eq (a b : pystr) : str_eqb a b = true <-> a = b.
Proof. apply (eqb_of_true str_cmp str_cmp_ok). Qed.

Lemma In_rename (c k v : pystr) (cols : list pystr) :
  In c (map (fun c' => if str_eqb c' k then v else c') cols) <->
  (In c cols /\ c <> k) \/ (In k cols /\ c = v).
Proof.
  rewrite in_map_iff. split.
  - intros (x & Hx & Hin). destruct (str_eqb x k) eqn:E.
    + apply str_eqb_eq in E. subst. auto.
    + subst x. left. split; [exact Hin |]. intros ->.
      rewrite (eqb_of_refl str_cmp str_cmp_ok) in E. discriminate.
  - intros [[Hin Hne] | [Hin ->]].
    + exists c. split; [| exact Hin]. destruct (str_eqb c k) eqn:E; [| reflexivity].
      apply str_eqb_eq in E. contradiction.
    + exists k. split; [| exact Hin]. rewrite (eqb_of_refl str_cmp str_cmp_ok). reflexivity.
Qed.

Lemma has_col_rename_step (c k v : pystr) (cols : list pystr) :
  has_col c (rename_step cols (k, v)) =
  if has_col k cols && negb (has_col v cols)
  then (has_col c cols && negb (str_eqb c k)) || str_eqb c v
  else has_col c cols.
Proof.
  unfold rename_step. cbn [fst snd].
  destruct (has_col k cols) eqn:Hk; [| reflexivity].
  destruct (has_col v cols); [reflexivity |]. cbn [andb negb].
  apply eq_iff_eq_true.
  rewrite orb_true_iff, andb_true_iff, negb_true_iff, !has_col_In, In_rename.
  rewrite (eqb_of_false str_cmp str_cmp_ok), str_eqb_eq.
  apply has_col_In in Hk. tauto.
Qed.

Ltac eval_literal_tests :=
  repeat match goal with
         | |- context [str_eqb (lit ?a) (lit ?b)] =>
             let t := constr:(str_eqb (lit a) (lit b)) in
             let v := eval vm_compute in t in
             change t with v
         end.

Ltac split_columns cols :=
  repeat match goal with
         | |- context [has_col ?a cols] => destruct (has_col a cols)
         end.

Lemma renamed_has_required (cols : list pystr) (c : pystr) :
  In c req -> has_col c (renamed cols) = field_present cols c.
Proof.
  unfold req, renamed, field_present, rename_map.
  cbn [fold_left existsb fst snd].
  intros [<- | [<- | [<- | [<- | []]]]];
    rewrite !has_col_rename_step; eval_literal_tests;
    split_columns cols; reflexivity.
Qed.

Lemma missing_renamed (cols : list pystr) : missing (renamed cols) = missing_fields cols.
Proof.
  unfold missing, missing_fields. apply filter_ext_in.
  intros c Hc. rewrite (renamed_has_required cols c Hc). reflexivity.
Qed.

(** ** [load_action] *)

Lemma join_names (sep q : pystr) (l : list pystr) :
  In q l -> exists pre post, join sep l = pre ++ q ++ post.
Proof.
  induction l as [|x l IH]; [intros [] |].
  intros [-> | H].
  - destruct l as [|y l].
    + exists [], []. simpl. rewrite app_nil_r. reflexivity.
    + exists [], (sep ++ join sep (y :: l)). reflexivity.
  - destruct (IH H) as (pre & post & E). destruct l as [|y l]; [destruct H |].
    exists (x ++ sep ++ pre), post.
    change (join sep (x :: y :: l)) with (x ++ sep ++ join sep (y :: l)).
    rewrite E, <- !app_assoc. reflexivity.
Qed.

Lemma repr_names (c : pystr) (l : list pystr) :
  In c l -> exists pre post, py_repr_list l = pre ++ (lit "'" ++ c ++ lit "'") ++ post.
Proof.
  intros H. unfold py_repr_list.
  destruct (join_names (lit ", ") (lit "'" ++ c ++ lit "'")
              (map (fun c => lit "'" ++ c ++ lit "'") l)) as (pre & post & E).
  - apply in_map_iff. exists c. auto.
  - exists (lit "[" ++ pre), (post ++ lit "]"). rewrite E, <- !app_assoc. reflexivity.
Qed.

Lemma zip5_columns (td : nat -> option Z) (f3 f4 f5 : list cell -> cell)
  (rs : list (list cell)) (s : nat) :
  zip5 (map td (seq s (List.length rs)))
       (map (option_map dt_date) (map td (seq s (List.length rs))))
       (map f3 rs) (map f4 rs) (map f5 rs) =
  map (fun ir : nat * list cell =>
         Build_ParsedRow (td (fst ir)) (option_map dt_date (td (fst ir)))
           (f3 (snd ir)) (f4 (snd ir)) (f5 (snd ir)))
    (combine (seq s (List.length rs)) rs).
Proof.
  revert s. induction rs as [|r rs IH]; intros s; [reflexivity |].
  cbn [List.length seq map zip5 combine fst snd]. f_equal. apply IH.
Qed.

Lemma dropna_Timestamp_map (td : nat -> option Z) (f3 f4 f5 : list cell -> cell)
  (l : list (nat * list cell)) :
  dropna_Timestamp
    (map (fun ir : nat * list cell =>
            Build_ParsedRow (td (fst ir)) (option_map dt_date (td (fst ir)))
              (f3 (snd ir)) (f4 (snd ir)) (f5 (snd ir))) l) =
  dropna_keys
    (fun ir : nat * list cell =>
       match td (fst ir) with
       | Some t => Some (Build_Event t (Some (dt_date t)) (f3 (snd ir)) (f4 (snd ir))
                           (f5 (snd ir)))
       | None => None
       end) l.
Proof.
  induction l as [|ir l IH]; [reflexivity |].
  cbn [map dropna_Timestamp dropna_keys p_Timestamp p_Date p_Product p_Plate p_Status].
  destruct (td (fst ir)); cbn [option_map]; rewrite IH; reflexivity.
Qed.

Lemma load_rows (td : nat -> option Z) (f3 f4 f5 : list cell -> cell)
  (rs : list (list cell)) :
  dropna_Timestamp
    (zip5 (map td (seq 0 (List.length rs)))
          (map (option_map dt_date) (map td (seq 0 (List.length rs))))
          (map f3 rs) (map f4 rs) (map f5 rs)) =
  dropna_keys
    (fun ir : nat * list cell =>
       match td (fst ir) with
       | Some t => Some (Build_Event t (Some (dt_date t)) (f3 (snd ir)) (f4 (snd ir))
                           (f5 (snd ir)))
       | None => None
       end)
    (combine (seq 0 (List.length rs)) rs).
Proof. rewrite zip5_columns. apply dropna_Timestamp_map. Qed.

Lemma dropna_keys_length {A K} (key : A -> option K) (l : list A) :
  (List.length (dropna_keys key l) <= List.length l)%nat.
Proof.
  induction l as [|x l IH]; simpl; [lia |]. destruct (key x); simpl; lia.
Qed.

Lemma dropna_keys_count {A K} (key : A -> option K) (l : list A) :
  List.length (dropna_keys key l) =
  List.length (filter (fun x => match key x with Some _ => true | None => false end) l).
Proof.
  induction l as [|x l IH]; simpl; [reflexivity |].
  destruct (key x); simpl; rewrite IH; reflexivity.
Qed.

Lemma In_enumerate {A} (l : list A) (s i : nat) (x : A) :
  In (i, x) (combine (seq s (List.length l)) l) ->
  (s <= i < s + List.length l)%nat /\ nth_error l (i - s) = Some x.
Proof.
  revert s. induction l as [|y l IH]; intros s; simpl; [intros [] |].
  intros [H | H].
  - injection H as <- <-. split; [lia |]. rewrite Nat.sub_diag. reflexivity.
  - destruct (IH (S s) H) as [Hr Hn]. split; [lia |].
    replace (i - s)%nat with (S (i - S s)) by lia. exact Hn.
Qed.

Section LoadFacts.

Variable uni_lower : pystr -> pystr.
Variable uni_isspace : N -> bool.
Variable to_datetime : list cell -> nat -> option Z.

Local Abbreviation load := (load_action uni_lower uni_isspace to_datetime).
Local Abbreviation events := (normalized_events uni_lower uni_isspace to_datetime).

Lemma load_action_cases (df : RawFrame) :
  load df =
  match missing_fields (columns df) with
  | _ :: _ => ValueError (lit "Missing columns: " ++ py_repr_list (missing_fields (columns df)))
  | [] => Returned (events df)
  end.
Proof.
  unfold load_action. fold (renamed (columns df)). rewrite missing_renamed.
  destruct (missing_fields (columns df)) as [|m ms]; [| reflexivity].
  f_equal. unfold normalized_events, normalize_record, column.
  rewrite length_map, (map_map _ (normalize_status uni_lower uni_isspace)).
  set (cols := renamed (columns df)).
  exact (load_rows
           (to_datetime (map (fun r => nth (col_index (lit "Timestamp") cols) r None) (rows df)))
           (fun r => nth (col_index (lit "Product") cols) r None)
           (fun r => nth (col_index (lit "Plate") cols) r None)
           (fun r => normalize_status uni_lower uni_isspace
                       (nth (col_index (lit "Status") cols) r None))
           (rows df)).
Qed.

(** C8. When a required field (timestamp, product, vehicle, status) is
    missing from the feed under its name and under its alias, [load_action]
    fails as a whole with an error whose message names the missing fields;
    it returns no events. *)
Theorem C8_missing_required_field (df : RawFrame) (c : pystr) :
  In c req -> field_present (columns df) c = false ->
  load df =
    ValueError (lit "Missing columns: " ++ py_repr_list (missing_fields (columns df))) /\
  In c (missing_fields (columns df)) /\
  (exists pre post,
     py_repr_list (missing_fields (columns df)) = pre ++ (lit "'" ++ c ++ lit "'") ++ post) /\
  (forall out, load df <> Returned out).
Proof.
  intros Hreq Hc.
  assert (Hin : In c (missing_fields (columns df))).
  { unfold missing_fields. apply filter_In. split; [exact Hreq |]. rewrite Hc. reflexivity. }
  assert (E : load df =
    ValueError (lit "Missing columns: " ++ py_repr_list (missing_fields (columns df)))).
  { rewrite load_action_cases.
    destruct (missing_fields (columns df)); [destruct Hin | reflexivity]. }
  split; [exact E |]. split; [exact Hin |]. split; [exact (repr_names c _ Hin) |].
  intros out. rewrite E. discriminate.
Qed.

(** C7. When no required field is missing, [load_action] returns, for
    whatever timestamps the batch holds: a record whose timestamp does not
    parse is dropped, every other record is normalized and kept in order, so
    each returned event has a parsed timestamp and the output is no longer
    than the input. *)
Theorem C7_unparseable_timestamps_dropped (df : RawFrame) :
  missing_fields (columns df) = [] ->
  let parsed := to_datetime (column (renamed (columns df)) (rows df) (lit "Timestamp")) in
  load df = Returned (events df) /\
  List.length (events df) =
    List.length (filter (fun i => match parsed i with Some _ => true | None => false end)
                   (seq 0 (List.length (rows df)))) /\
  (List.length (events df) <= List.length (rows df))%nat /\
  (forall e, In e (events df) ->
     exists i row, nth_error (rows df) i = Some row /\
                   parsed i = Some (Timestamp e) /\
                   normalize_record uni_lower uni_isspace to_datetime df (i, row) = Some e).
Proof.
  intros Hm parsed. split; [rewrite load_action_cases, Hm; reflexivity |].
  split; [| split].
  - unfold normalized_events. rewrite dropna_keys_count.
    assert (G : forall (l : list (list cell)) s,
      List.length
        (filter (fun x : nat * list cell =>
                   match normalize_record uni_lower uni_isspace to_datetime df x with
                   | Some _ => true
                   | None => false
                   end) (combine (seq s (List.length l)) l)) =
      List.length
        (filter (fun i => match parsed i with Some _ => true | None => false end)
           (seq s (List.length l)))).
    { induction l as [|r l IH]; intros s; [reflexivity |].
      cbn [List.length seq combine filter]. unfold normalize_record at 1. cbn [fst].
      fold parsed. destruct (parsed s); cbn [List.length]; rewrite IH; reflexivity. }
    apply G.
  - unfold normalized_events.
    eapply Nat.le_trans; [apply dropna_keys_length |].
    rewrite length_combine, length_seq. lia.
  - intros e He. unfold normalized_events in He. apply dropna_keys_In in He.
    destruct He as ([i row] & Hin & Hrec).
    apply In_enumerate in Hin. destruct Hin as [_ Hn]. rewrite Nat.sub_0_r in Hn.
    exists i, row. split; [exact Hn |]. split; [| exact Hrec].
    unfold normalize_record in Hrec. cbn [fst] in Hrec. fold parsed in Hrec.
    destruct (parsed i) as [t|]; [| discriminate]. injection Hrec as <-. reflexivity.
Qed.

End LoadFacts.

Lemma C8_missing_required_field_witness :
  load_action sample_lower sample_isspace sample_to_datetime feed_without_plate =
    ValueError (lit "Missing columns: ['Plate']") /\
  forall out,
    load_action sample_lower sample_isspace sample_to_datetime feed_without_plate
    <> Returned out.
Proof.
  destruct (C8_missing_required_field sample_lower sample_isspace sample_to_datetime
              feed_without_plate (lit "Plate")) as (H1 & _ & _ & H4).
  - right. right. left. reflexivity.
  - vm_compute. reflexivity.
  - split; [exact H1 | exact H4].
Defined.

Lemma C7_unparseable_timestamps_dropped_witness :
  load_action sample_lower sample_isspace sample_to_datetime sample_feed =
    Returned (normalized_events sample_lower sample_isspace sample_to_datetime sample_feed) /\
  List.length (normalized_events sample_lower sample_isspace sample_to_datetime sample_feed)
    = 2%nat.
Proof.
  destruct (C7_unparseable_timestamps_dropped sample_lower sample_isspace
              sample_to_datetime sample_feed) as (H1 & _ & _ & _).
  - vm_compute. reflexivity.
  - split; [exact H1 | vm_compute; reflexivity].
Defined.

(** ** The scenarios of the specification *)

(** An empty [Status] cell of the feed reaches the pivot as a missing status. *)
Lemma empty_status_feed_loaded :
  load_action sample_lower sample_isspace sample_to_datetime empty_status_feed =
  Returned nan_status_action.
Proof. vm_compute. reflexivity. Qed.

Lemma full_cycle_intervals :
  map interval (wide full_cycle) =
  [ {| w_Date := 0; w_Product := lit "Cement"; w_Plate := lit "ABC-1";
       Waiting := Some (at_minute 8 0); Start_Loading := Some (at_minute 8 30);
       Complete_Loading := Some (at_minute 9 45) |} ].
Proof. vm_compute. reflexivity. Qed.

Lemma full_cycle_durations :
  forall r, In r (wide full_cycle) ->
    exists w l t,
      Waiting_Time_min r = Some w /\ Loading_Time_min r = Some l /\
      Total_Time_min r = Some t /\ (w == 30 /\ l == 75 /\ t == 105)%Q.
Proof.
  intros r [<- | []]. eexists. eexists. eexists.
  repeat split; try (vm_compute; reflexivity).
Qed.

(** With [Complete Loading] entered before [Start Loading], the loading time
    is suppressed; the waiting and the total time, whose end follows their
    start, are kept. *)
Lemma out_of_order_durations :
  forall r, In r (wide out_of_order) ->
    Loading_Time_min r = None /\
    exists w t, Waiting_Time_min r = Some w /\ Total_Time_min r = Some t /\
                (w == 90 /\ t == 60)%Q.
Proof.
  intros r [<- | []]. split; [vm_compute; reflexivity |].
  eexists. eexists. repeat split; try (vm_compute; reflexivity).
Qed.

Lemma one_waiting_vehicle_counts :
  status_counts one_waiting_vehicle 0 =
  [ (lit "Waiting", 1%nat); (lit "Start Loading", 0%nat); (lit "Complete Loading", 0%nat) ].
Proof. vm_compute. reflexivity. Qed.

(** * Further properties of the pipeline *)

(** ** Order of the grouped frames *)

Lemma sorted_distinct {A} (R : A -> A -> Prop) (l : list A) :
  StronglySorted R l -> NoDup l -> StronglySorted (fun x y => R x y /\ x <> y) l.
Proof.
  induction 1 as [|x l Hs IH Hall]; intros Hnd; [constructor |].
  inversion Hnd as [|? ? Hnot Hnd']; subst. constructor; [exact (IH Hnd') |].
  rewrite Forall_forall in *. intros y Hy. split; [exact (Hall y Hy) |].
  intros ->. contradiction.
Qed.

Lemma group_keys_increasing {A K} (c : K -> K -> comparison) (ok : OrdOK c)
  (key : A -> option K) (l : list A) :
  StronglySorted (fun x y => c x y = Lt) (group_keys c key l).
Proof.
  assert (H : StronglySorted (fun x y => leb_of c x y = true /\ x <> y)
                (group_keys c key l)).
  { apply sorted_distinct; [| apply (group_keys_NoDup c ok)].
    unfold group_keys.
    apply (sort_values_sorted _ (leb_of_total c ok) (leb_of_trans c ok)). }
  eapply StronglySorted_ind with (P := StronglySorted (fun x y => c x y = Lt));
    [constructor | | exact H].
  intros x r _ IH Hall. constructor; [exact IH |].
  eapply Forall_impl; [| exact Hall]. intros y [Hle Hne].
  unfold leb_of in Hle. destruct (c x y) eqn:E; [| reflexivity | discriminate].
  apply (ord_eq c ok) in E. contradiction.
Qed.

(** ** Arithmetic of the durations *)

Lemma minutes_fraction (d : Z) : (total_seconds d / 60 == d # 60000000000)%Q.
Proof.
  unfold total_seconds, ns_per_second, Qeq, Qdiv, Qmult, Qinv, inject_Z. simpl. lia.
Qed.

Lemma drop_negative_some (finish start : option Z) (q : Q) :
  drop_negative (minutes_between finish start) = Some q ->
  exists e s, finish = Some e /\ start = Some s /\ s <= e /\
              (q == (e - s) # 60000000000)%Q.
Proof.
  destruct finish as [e|], start as [s|]; simpl; try discriminate.
  unfold Qlt_bool. rewrite minutes_sign.
  destruct (Z.leb_spec 0 (e - s)) as [H | H]; simpl; [| discriminate].
  intros E. injection E as <-. exists e, s.
  repeat split; [lia | apply minutes_fraction].
Qed.

(** X3. When the waiting time and the loading time of a record are both
    known, so is its total time: the three instants are then present and in
    order. *)
Theorem total_known_with_its_parts (r : PivotRow) :
  Waiting_Time_min (durations r) <> None ->
  Loading_Time_min (durations r) <> None ->
  Total_Time_min (durations r) <> None /\
  exists w s c, Waiting r = Some w /\ Start_Loading r = Some s /\
                Complete_Loading r = Some c /\ w <= s <= c.
Proof.
  unfold durations. cbn [Waiting_Time_min Loading_Time_min Total_Time_min].
  intros Hw Hl.
  destruct (drop_negative (minutes_between (Start_Loading r) (Waiting r))) as [qw|] eqn:Ew;
    [| contradiction].
  destruct (drop_negative (minutes_between (Complete_Loading r) (Start_Loading r)))
    as [ql|] eqn:El; [| contradiction].
  apply drop_negative_some in Ew. destruct Ew as (s & w & Hs & Hw' & Hsw & _).
  apply drop_negative_some in El. destruct El as (c & s' & Hc & Hs' & Hcs & _).
  rewrite Hs in Hs'. injection Hs' as <-.
  split; [| exists w, s, c; repeat split; assumption].
  rewrite Hc, Hw'. simpl. unfold Qlt_bool. rewrite minutes_sign.
  replace (0 <=? c - w) with true by (symmetry; apply Z.leb_le; lia). simpl. discriminate.
Qed.

Lemma total_known_with_its_parts_witness :
  Total_Time_min (durations full_cycle_interval) <> None /\
  exists w s c, Waiting full_cycle_interval = Some w /\
                Start_Loading full_cycle_interval = Some s /\
                Complete_Loading full_cycle_interval = Some c /\ w <= s <= c.
Proof.
  apply (total_known_with_its_parts full_cycle_interval); vm_compute; discriminate.
Defined.

(** ** What [load_action] guarantees about its rows *)

Section LoadInvariant.

Variable uni_lower : pystr -> pystr.
Variable uni_isspace : N -> bool.
Variable to_datetime : list cell -> nat -> option Z.

Lemma normalize_status_settled (c : cell) :
  normalize_status uni_lower uni_isspace (normalize_status uni_lower uni_isspace c) =
  normalize_status uni_lower uni_isspace c.
Proof.
  pose proof (normalize_missing uni_lower uni_isspace) as Hnone.
  destruct c as [s|]; [| rewrite Hnone; exact Hnone].
  assert (H : normalize_status uni_lower uni_isspace (Some s) =
              match dict_get status_map (str_lower uni_lower (str_strip uni_isspace s)) with
              | Some v => Some v
              | None => Some s
              end).
  { unfold normalize_status. cbn [astype_str]. destruct (dict_get _ _); reflexivity. }
  destruct (dict_get status_map (str_lower uni_lower (str_strip uni_isspace s)))
    as [v|] eqn:E; rewrite H.
  - apply normalize_known. exact (status_map_values _ _ E).
  - exact H.
Qed.

(** X4. Every row that [load_action] returns carries the calendar day of its
    own timestamp as its date, and a status that normalization leaves as it
    is. *)
Theorem loaded_rows_invariant (df : RawFrame) (action : list Event) :
  load_action uni_lower uni_isspace to_datetime df = Returned action ->
  forall e, In e action ->
    Date e = Some (dt_date (Timestamp e)) /\
    normalize_status uni_lower uni_isspace (Status e) = Status e.
Proof.
  rewrite load_action_cases.
  destruct (missing_fields (columns df)); [| discriminate].
  intros H e He. injection H as <-.
  unfold normalized_events in He. apply dropna_keys_In in He.
  destruct He as (ir & _ & Hrec). unfold normalize_record in Hrec.
  destruct (to_datetime _ _) as [t|]; [| discriminate].
  injection Hrec as <-. cbn [Date Timestamp Status].
  split; [reflexivity | apply normalize_status_settled].
Qed.

End LoadInvariant.

Lemma loaded_rows_invariant_witness :
  let e := {| Timestamp := 65 * ns_per_day; Date := Some 65;
              Product := Some (lit "Cement"); Plate := Some (lit "ABC-1");
              Status := Some (lit "Waiting") |} in
  Date e = Some (dt_date (Timestamp e)) /\
  normalize_status sample_lower sample_isspace (Status e) = Status e.
Proof.
  apply (loaded_rows_invariant sample_lower sample_isspace sample_to_datetime sample_feed
           (normalized_events sample_lower sample_isspace sample_to_datetime sample_feed)).
  - vm_compute. reflexivity.
  - vm_compute. left. reflexivity.
Defined.

(** ** Records of one calendar day *)

Lemma same_day_distance (t1 t2 d : Z) :
  dt_date t1 = d -> dt_date t2 = d -> t2 - t1 < ns_per_day.
Proof.
  unfold dt_date. intros H1 H2.
  assert (Hpos : 0 < ns_per_day) by reflexivity.
  pose proof (Z.div_mod t1 ns_per_day) as E1.
  pose proof (Z.div_mod t2 ns_per_day) as E2.
  pose proof (Z.mod_pos_bound t1 ns_per_day Hpos) as B1.
  pose proof (Z.mod_pos_bound t2 ns_per_day Hpos) as B2.
  rewrite H1 in E1. rewrite H2 in E2. lia.
Qed.

Lemma wide_field_event (action : list Event) (r : WideRow) (s : pystr) (f : option Z)
  (t : Z) :
  is_earliest action (row_key r) s f -> f = Some t ->
  exists e, In e action /\ Date e = Some (w_Date (interval r)) /\ Timestamp e = t.
Proof.
  intros H ->. destruct H as [(e & He & (Hd & _ & _) & _ & Ht) _].
  exists e. auto.
Qed.

Lemma wide_row_fields (action : list Event) (r : WideRow) :
  In r (wide action) ->
  r = durations (interval r) /\
  is_earliest action (row_key r) (lit "Waiting") (Waiting (interval r)) /\
  is_earliest action (row_key r) (lit "Start Loading") (Start_Loading (interval r)) /\
  is_earliest action (row_key r) (lit "Complete Loading") (Complete_Loading (interval r)).
Proof.
  intros Hr. unfold wide, wide_pivot in Hr. rewrite map_map in Hr.
  apply in_map_iff in Hr. destruct Hr as ([[d p] v] & <- & _).
  split; [reflexivity |]. unfold row_key. simpl.
  repeat split; apply wide_column_earliest.
Qed.

(** X5. When every event carries the calendar day of its timestamp, as the
    rows of [load_action] do, the instants of a record all lie on the date of
    the record, and every known duration is shorter than a day (1440
    minutes): a cycle that runs over midnight is never measured. *)
Theorem durations_within_a_day (action : list Event) (r : WideRow) :
  date_consistent action -> In r (wide action) ->
  (forall t, In (Some t)
               [Waiting (interval r); Start_Loading (interval r);
                Complete_Loading (interval r)] ->
             dt_date t = w_Date (interval r)) /\
  (forall q, In (Some q) [Waiting_Time_min r; Loading_Time_min r; Total_Time_min r] ->
             (q < 1440)%Q).
Proof.
  intros Hc Hr. destruct (wide_row_fields action r Hr) as (Hd & Hw & Hs & Hcl).
  assert (Hday : forall s f t, is_earliest action (row_key r) s f -> f = Some t ->
                               dt_date t = w_Date (interval r)).
  { intros s f t Hf Ht. destruct (wide_field_event action r s f t Hf Ht) as (e & He & Hde & <-).
    rewrite (Hc e He) in Hde. injection Hde as Hde. exact Hde. }
  assert (Hfields : forall t, In (Some t)
               [Waiting (interval r); Start_Loading (interval r);
                Complete_Loading (interval r)] ->
             dt_date t = w_Date (interval r)).
  { intros t [H | [H | [H | []]]]; eauto. }
  split; [exact Hfields |].
  assert (Hq : forall finish start q,
             In finish [Waiting (interval r); Start_Loading (interval r);
                        Complete_Loading (interval r)] ->
             In start [Waiting (interval r); Start_Loading (interval r);
                       Complete_Loading (interval r)] ->
             drop_negative (minutes_between finish start) = Some q -> (q < 1440)%Q).
  { intros finish start q Hf Hs' Hq. apply drop_negative_some in Hq.
    destruct Hq as (e & s & -> & -> & Hle & Eq).
    pose proof (same_day_distance s e _ (Hfields s Hs') (Hfields e Hf)) as Hlt.
    rewrite Eq. unfold Qlt. simpl. unfold ns_per_day, ns_per_second in Hlt. lia. }
  rewrite Hd. unfold durations. cbn [Waiting_Time_min Loading_Time_min Total_Time_min].
  intros q [H | [H | [H | []]]]; eapply Hq; try exact H; simpl; auto.
Qed.

Lemma durations_within_a_day_witness :
  dt_date (at_minute 8 0) = 0.
Proof.
  assert (Hc : date_consistent full_cycle).
  { intros e [<- | [<- | [<- | [<- | []]]]]; vm_compute; reflexivity. }
  assert (Hr : In (durations
                     {| w_Date := 0; w_Product := lit "Cement"; w_Plate := lit "ABC-1";
                        Waiting := Some (at_minute 8 0);
                        Start_Loading := Some (at_minute 8 30);
                        Complete_Loading := Some (at_minute 9 45) |}) (wide full_cycle)).
  { vm_compute. left. reflexivity. }
  destruct (durations_within_a_day full_cycle _ Hc Hr) as [H _].
  apply H. left. reflexivity.
Defined.

(** ** Renaming of the columns (lines 33-37) *)

Lemma rename_step_length (cols : list pystr) (kv : pystr * pystr) :
  List.length (rename_step cols kv) = List.length cols.
Proof.
  unfold rename_step. destruct (_ && _); [apply length_map | reflexivity].
Qed.

Lemma renamed_length (cols : list pystr) : List.length (renamed cols) = List.length cols.
Proof.
  unfold renamed, rename_map. cbn [fold_left]. rewrite !rename_step_length. reflexivity.
Qed.

Lemma col_index_absent (c : pystr) (cols : list pystr) :
  has_col c cols = false -> col_index c cols = List.length cols.
Proof.
  unfold has_col. induction cols as [|x cols IH]; simpl; [reflexivity |].
  rewrite (str_eqb_sym c x). destruct (str_eqb x c); simpl; [discriminate |].
  intros H. rewrite (IH H). reflexivity.
Qed.

Lemma col_index_rename (c k v : pystr) (cols : list pystr) :
  has_col v cols = false ->
  col_index c (map (fun c' => if str_eqb c' k then v else c') cols) =
  if str_eqb c v then col_index k cols
  else if str_eqb c k then List.length cols
  else col_index c cols.
Proof.
  unfold has_col. induction cols as [|x cols IH]; simpl.
  - intros _. destruct (str_eqb c v), (str_eqb c k); reflexivity.
  - rewrite (str_eqb_sym v x). destruct (str_eqb x v) eqn:Exv; simpl; [discriminate |].
    intros Hv. rewrite (IH Hv).
    destruct (str_eqb x k) eqn:Exk.
    + apply str_eqb_eq in Exk. subst x.
      rewrite (str_eqb_sym v c). destruct (str_eqb c v) eqn:Ecv; [reflexivity |].
      rewrite (str_eqb_sym k c). destruct (str_eqb c k); reflexivity.
    + destruct (str_eqb x c) eqn:Exc.
      * apply str_eqb_eq in Exc. subst x. rewrite Exv, Exk. reflexivity.
      * destruct (str_eqb c v), (str_eqb c k); reflexivity.
Qed.

Lemma col_index_rename_step (c k v : pystr) (cols : list pystr) :
  col_index c (rename_step cols (k, v)) =
  if has_col k cols && negb (has_col v cols)
  then if str_eqb c v then col_index k cols
       else if str_eqb c k then List.length cols
       else col_index c cols
  else col_index c cols.
Proof.
  unfold rename_step. cbn [fst snd].
  destruct (has_col k cols); [| reflexivity].
  destruct (has_col v cols) eqn:Hv; [reflexivity |]. cbn [andb negb].
  apply col_index_rename. exact Hv.
Qed.

Ltac absent_columns cols :=
  repeat match goal with
         | |- context [has_col ?a cols] =>
             let E := fresh "E" in destruct (has_col a cols) eqn:E
         end;
  cbn [andb orb negb];
  repeat match goal with
         | E : has_col ?a cols = false |- context [col_index ?a cols] =>
             rewrite (col_index_absent a cols E)
         end.

(** X6. After the renaming, a required column is read at the position where
    the feed has it under its own name or, when that name is absent, under
    its alias; no column is added or removed. *)
Theorem renamed_column_position (cols : list pystr) (k v : pystr) :
  In (k, v) rename_map ->
  List.length (renamed cols) = List.length cols /\
  col_index v (renamed cols) = col_index (if has_col v cols then v else k) cols.
Proof.
  intros Hin. split; [apply renamed_length |].
  unfold rename_map in Hin. unfold renamed, rename_map. cbn [fold_left].
  destruct Hin as [H | [H | [H | [H | []]]]]; injection H as <- <-;
    rewrite !col_index_rename_step, ?rename_step_length, !has_col_rename_step;
    eval_literal_tests; absent_columns cols; reflexivity.
Qed.

Lemma renamed_column_position_witness :
  col_index (lit "Plate") (renamed (columns sample_feed)) = 2%nat.
Proof.
  destruct (renamed_column_position (columns sample_feed) (lit "Plate Number") (lit "Plate"))
    as [_ H].
  - left. reflexivity.
  - rewrite H. vm_compute. reflexivity.
Defined.

Lemma rename_step_NoDup (cols : list pystr) (kv : pystr * pystr) :
  NoDup cols -> NoDup (rename_step cols kv).
Proof.
  unfold rename_step. destruct kv as [k v]. cbn [fst snd].
  destruct (has_col k cols) eqn:Hk; [| auto].
  destruct (has_col v cols) eqn:Hv; [auto |]. cbn [andb negb].
  assert (Hnv : ~ In v cols).
  { intros H. apply has_col_In in H. congruence. }
  clear Hk Hv. induction cols as [|x cols IH]; intros Hnd; [constructor |].
  inversion Hnd as [|? ? Hx Hnd']; subst. cbn [map]. constructor.
  - rewrite In_rename. intros [[Hin Hne] | [Hin He]].
    + destruct (str_eqb x k) eqn:E.
      * apply Hnv. right. exact Hin.
      * contradiction.
    + destruct (str_eqb x k) eqn:E.
      * apply str_eqb_eq in E. subst x. contradiction.
      * apply Hnv. left. exact He.
  - apply IH; [| exact Hnd']. intros H. apply Hnv. right. exact H.
Qed.

(** X7. The renaming never makes two columns share a name: a feed with
    distinct column names keeps distinct column names. *)
Theorem renamed_NoDup (cols : list pystr) : NoDup cols -> NoDup (renamed cols).
Proof.
  intros H. unfold renamed, rename_map. cbn [fold_left].
  repeat apply rename_step_NoDup. exact H.
Qed.

Lemma renamed_NoDup_witness : NoDup (renamed (columns sample_feed)).
Proof.
  apply renamed_NoDup. unfold sample_feed. cbn [columns].
  repeat constructor; simpl; intros H;
    repeat (destruct H as [H | H]; [discriminate H |]); exact H.
Defined.

Lemma rename_step_settled (cols : list pystr) (k v : pystr) :
  has_col k cols && negb (has_col v cols) = false -> rename_step cols (k, v) = cols.
Proof. unfold rename_step. cbn [fst snd]. intros ->. reflexivity. Qed.

Lemma renamed_settled (cols : list pystr) (k v : pystr) :
  In (k, v) rename_map ->
  has_col k (renamed cols) && negb (has_col v (renamed cols)) = false.
Proof.
  unfold renamed, rename_map. cbn [fold_left].
  intros [H | [H | [H | [H | []]]]]; injection H as <- <-;
    rewrite !has_col_rename_step; eval_literal_tests;
    split_columns cols; reflexivity.
Qed.

(** X8. Renaming is settled after one pass: on columns already renamed it
    changes nothing. *)
Theorem renamed_idempotent (cols : list pystr) : renamed (renamed cols) = renamed cols.
Proof.
  unfold renamed at 1. unfold rename_map. cbn [fold_left].
  rewrite (rename_step_settled (renamed cols) (lit "Plate Number") (lit "Plate"))
    by (apply renamed_settled; simpl; auto).
  rewrite (rename_step_settled (renamed cols) (lit "Product Group") (lit "Product"))
    by (apply renamed_settled; simpl; auto).
  rewrite (rename_step_settled (renamed cols) (lit "Action") (lit "Status"))
    by (apply renamed_settled; simpl; auto).
  apply rename_step_settled. apply renamed_settled. simpl. auto 6.
Qed.

(** ** Rows and counts of the live view (section 6) *)

Lemma groupby_tail1_subset {A K} (c : K -> K -> comparison) (key : A -> option K)
  (l : list A) (x : A) : In x (groupby_tail1 c key l) -> In x l.
Proof.
  induction l as [|y l IH]; simpl; [tauto |].
  destruct (key y) as [k|]; [| auto].
  destruct (existsb (has_key c key k) l); [auto |].
  intros [H | H]; auto.
Qed.

Lemma dropna_keys_all {A K} (key : A -> option K) (l : list A) :
  (forall x, In x l -> key x <> None) ->
  List.length (dropna_keys key l) = List.length l.
Proof.
  induction l as [|x l IH]; intros H; simpl; [reflexivity |].
  destruct (key x) eqn:E.
  - simpl. rewrite IH; [reflexivity |]. intros y Hy. apply H. right. exact Hy.
  - exfalso. apply (H x); [left; reflexivity | exact E].
Qed.

Lemma on_date_true (d : Z) (e : Event) : on_date d e = true <-> Date e = Some d.
Proof.
  unfold on_date. apply (eqb_of_true _ (opt_cmp_ok _ Z_compare_ok)).
Qed.

(** X9. The live view has exactly one row per vehicle observed on the
    selected date; each row is an event of the input, of that date, with a
    plate. *)
Theorem latest_one_row_per_vehicle (action : list Event) (sel_date : Z) :
  List.length (latest action sel_date) = List.length (vehicles action sel_date) /\
  forall e, In e (latest action sel_date) ->
    In e action /\ Date e = Some sel_date /\ Plate e <> None.
Proof.
  split.
  - rewrite <- (Permutation_length (latest_plates action sel_date)).
    symmetry. apply dropna_keys_all. intros e He.
    unfold latest in He. exact (groupby_tail1_keyed str_cmp Plate _ _ He).
  - intros e He. split; [| split].
    + unfold latest in He. apply groupby_tail1_subset in He.
      rewrite (sort_values_In leb_plate_ts) in He. apply filter_In in He. tauto.
    + unfold latest in He. apply groupby_tail1_subset in He.
      rewrite (sort_values_In leb_plate_ts) in He. apply filter_In in He.
      apply on_date_true. tauto.
    + unfold latest in He. exact (groupby_tail1_keyed str_cmp Plate _ _ He).
Qed.

Lemma cell_eqb_true (x y : cell) : cell_eqb x y = true <-> x = y.
Proof. apply (eqb_of_true cell_cmp cell_cmp_ok). Qed.

Lemma known_status_counts_add (f : pystr -> cell) (l : list pystr) :
  (List.length (filter (fun p => cell_eqb (f p) (Some (lit "Waiting"))) l)
   + (List.length (filter (fun p => cell_eqb (f p) (Some (lit "Start Loading"))) l)
      + (List.length (filter (fun p => cell_eqb (f p) (Some (lit "Complete Loading"))) l)
         + 0)))%nat =
  List.length
    (filter (fun p => existsb (fun s => cell_eqb (f p) (Some s)) known_statuses) l).
Proof.
  induction l as [|p l IH]; [reflexivity |].
  cbn [existsb known_statuses] in IH. cbn [filter existsb known_statuses].
  destruct (cell_eqb (f p) (Some (lit "Waiting"))) eqn:E1;
    destruct (cell_eqb (f p) (Some (lit "Start Loading"))) eqn:E2;
    destruct (cell_eqb (f p) (Some (lit "Complete Loading"))) eqn:E3;
    try (apply cell_eqb_true in E1); try (apply cell_eqb_true in E2);
    try (apply cell_eqb_true in E3);
    try (rewrite E1 in E2; vm_compute in E2; discriminate E2);
    try (rewrite E1 in E3; vm_compute in E3; discriminate E3);
    try (rewrite E2 in E3; vm_compute in E3; discriminate E3);
    cbn [orb List.length]; lia.
Qed.

(** X10. The three live counts add up to the number of vehicles whose latest
    status is one of the three known statuses; so no vehicle is counted
    twice and the counts never exceed the vehicles observed on the date. *)
Theorem status_counts_total (action : list Event) (sel_date : Z) :
  total_count (map snd (status_counts action sel_date)) =
    List.length
      (filter (fun p => existsb (fun s => cell_eqb (live_status action sel_date p) (Some s))
                          known_statuses)
         (vehicles action sel_date)) /\
  (total_count (map snd (status_counts action sel_date))
   <= List.length (vehicles action sel_date))%nat.
Proof.
  assert (E : total_count (map snd (status_counts action sel_date)) =
    List.length
      (filter (fun p => existsb (fun s => cell_eqb (live_status action sel_date p) (Some s))
                          known_statuses)
         (vehicles action sel_date))).
  { unfold status_counts, reindex, known_statuses at 1.
    cbn [map snd total_count fold_right]. rewrite !count_of_status.
    unfold vehicles_in. apply known_status_counts_add. }
  split; [exact E |]. rewrite E. apply filter_length_le.
Qed.

(** ** The daily summary counts every record once *)

Lemma total_count_add {K} (a b : K -> nat) (ks : list K) :
  total_count (map (fun k => (a k + b k)%nat) ks) =
  (total_count (map a ks) + total_count (map b ks))%nat.
Proof.
  unfold total_count. induction ks as [|k ks IH]; simpl; [reflexivity |]. rewrite IH. lia.
Qed.

Lemma group_sizes {A K} (c : K -> K -> comparison) (ok : OrdOK c) (key : A -> option K)
  (ks : list K) (l : list A) :
  NoDup ks ->
  total_count (map (fun k => List.length (filter (has_key c key k) l)) ks) =
  List.length
    (filter (fun x => existsb (fun k => has_key c key k x) ks) l).
Proof.
  intros Hnd. induction l as [|x l IH].
  - simpl. unfold total_count. clear Hnd. induction ks; simpl; auto.
  - assert (E : forall k, List.length (filter (has_key c key k) (x :: l)) =
                  ((if has_key c key k x then 1 else 0)
                   + List.length (filter (has_key c key k) l))%nat).
    { intros k. simpl. destruct (has_key c key k x); reflexivity. }
    rewrite (map_ext _ _ E), total_count_add, IH. cbn [filter].
    assert (One : total_count (map (fun k => if has_key c key k x then 1 else 0)%nat ks) =
                  if existsb (fun k => has_key c key k x) ks then 1%nat else 0%nat).
    { clear IH E. induction Hnd as [|k ks Hnot Hnd IHks]; [reflexivity |].
      cbn [map existsb]. unfold total_count in *. cbn [fold_right]. rewrite IHks.
      destruct (has_key c key k x) eqn:Hk; [| reflexivity]. cbn [orb].
      destruct (existsb (fun k0 => has_key c key k0 x) ks) eqn:Hex; [| reflexivity].
      exfalso. apply existsb_exists in Hex. destruct Hex as (k' & Hin & Hk').
      apply (has_key_true c ok) in Hk. apply (has_key_true c ok) in Hk'.
      rewrite Hk in Hk'. injection Hk' as ->. contradiction. }
    rewrite One. destruct (existsb _ ks); reflexivity.
Qed.

(** X11. The truck counts of the daily summary add up to the number of
    records of the day: every record is counted in exactly one group. *)
Theorem summary_counts_every_record (float_mean : list Q -> Q) (np_round1 : Q -> Q)
  (day : list WideRow) :
  total_count (map Truck_Count (summary float_mean np_round1 day)) = List.length day.
Proof.
  unfold summary, groupby. rewrite !map_map. cbn [Truck_Count snd].
  rewrite (map_ext _ (fun k => List.length (filter (has_key key2_cmp key2 k) day)))
    by (intros k; apply count_all_known).
  rewrite (group_sizes key2_cmp key2_cmp_ok) by apply (group_keys_NoDup key2_cmp key2_cmp_ok).
  f_equal. apply forallb_filter_id. apply forallb_forall. intros r Hr.
  apply existsb_exists. exists (w_Date (interval r), w_Product (interval r)). split.
  - apply (group_keys_In key2_cmp key2_cmp_ok). exists r. split; [exact Hr | reflexivity].
  - apply (has_key_true key2_cmp key2_cmp_ok). reflexivity.
Qed.

(** ** Rounding to one decimal *)

Lemma rint_close (x : Q) : Qabs_le (inject_Z (rint x) - x) (1 # 2).
Proof.
  unfold rint, Qabs_le.
  pose proof (Qfloor_le x) as Hlo.
  pose proof (Qlt_floor x) as Hhi.
  rewrite inject_Z_plus in Hhi. change (inject_Z 1) with 1%Q in Hhi.
  destruct (Qcompare (x - inject_Z (Qfloor x)) (1 # 2)) eqn:E.
  - apply Qeq_alt in E. destruct (Z.even (Qfloor x)).
    + lra.
    + rewrite inject_Z_plus. change (inject_Z 1) with 1%Q. lra.
  - apply Qlt_alt in E. lra.
  - apply Qgt_alt in E. rewrite inject_Z_plus. change (inject_Z 1) with 1%Q. lra.
Qed.

Lemma round1_close (q : Q) : Qabs_le (round1 q - q) (1 # 20).
Proof.
  unfold round1. pose proof (rint_close (q * 10)) as [H1 H2]. unfold Qabs_le.
  unfold Qdiv. change (/ 10)%Q with (1 # 10)%Q.
  split; lra.
Qed.

Lemma rint_nonneg (x : Q) : (0 <= x)%Q -> 0 <= rint x.
Proof.
  intros H. unfold rint.
  assert (0 <= Qfloor x). { change 0 with (Qfloor 0). apply Qfloor_resp_le. exact H. }
  destruct (Qcompare _ _); [destruct (Z.even _) | |]; lia.
Qed.

Lemma round1_nonneg (q : Q) : (0 <= q)%Q -> (0 <= round1 q)%Q.
Proof.
  intros H. unfold round1.
  assert (Hn : 0 <= rint (q * 10)) by (apply rint_nonneg; lra).
  unfold Qdiv. change (/ 10)%Q with (1 # 10)%Q.
  assert (Hq : (0 <= inject_Z (rint (q * 10)))%Q).
  { change 0%Q with (inject_Z 0). rewrite <- Zle_Qle. exact Hn. }
  lra.
Qed.

(** Exact arithmetic is an instance of the accuracy that [C3_daily_summary]
    asks of the float library, with no error at all. *)
Lemma exact_arithmetic_accurate (n : nat) :
  mean_accurate arithmetic_mean 0 n /\ round_accurate round1 0.
Proof.
  split.
  - intros l _ _ _. unfold Qabs_le. split; lra.
  - intros y _. pose proof (round1_close y) as [H1 H2]. unfold Qabs_le. split; lra.
Qed.

(** ** The per-truck table (section 8) *)



Lemma leb_product_plate_total (x y : TruckRow) :
  leb_product_plate x y = false -> leb_product_plate y x = true.
Proof. apply (leb_of_total _ (pair_cmp_ok _ _ str_cmp_ok str_cmp_ok)). Qed.

Lemma leb_product_plate_trans (x y z : TruckRow) :
  leb_product_plate x y = true -> leb_product_plate y z = true ->
  leb_product_plate x z = true.
Proof. apply (leb_of_trans _ (pair_cmp_ok _ _ str_cmp_ok str_cmp_ok)). Qed.

Lemma per_truck_table_perm (day : list WideRow) :
  Permutation (per_truck_table day)
    (map (fun r => round_truck_row (select_truck_columns r)) day).
Proof.
  unfold per_truck_table.
  rewrite <- (map_map select_truck_columns round_truck_row).
  apply Permutation_map, sort_values_perm.
Qed.


Lemma df_day_subset (w : list WideRow) (d : Z) (ps : list pystr) (r : WideRow) :
  In r (df_day w d ps) ->
  In r w /\ w_Date (interval r) = d /\ In (w_Product (interval r)) ps.
Proof.
  unfold df_day. rewrite filter_In, andb_true_iff, Z.eqb_eq, has_col_In. tauto.
Qed.

Lemma rounded_never_negative (d : option Q) :
  never_negative d -> never_negative (option_map round1 d).
Proof. destruct d as [q|]; simpl; [apply round1_nonneg | auto]. Qed.

(** X14. No duration shown in the per-truck table is negative: rounding
    never turns a kept duration into a negative one. *)
Theorem per_truck_table_never_negative (action : list Event) (sel_date : Z)
  (sel_products : list pystr) (row : TruckRow) :
  In row (per_truck_table (df_day (wide action) sel_date sel_products)) ->
  never_negative (t_Waiting_Time_min row) /\
  never_negative (t_Loading_Time_min row) /\
  never_negative (t_Total_Time_min row).
Proof.
  intros Hrow.
  apply (Permutation_in _ (per_truck_table_perm _)) in Hrow. apply in_map_iff in Hrow.
  destruct Hrow as (r & <- & Hr). apply df_day_subset in Hr. destruct Hr as (Hr & _ & _).
  destruct (wide_row_fields action r Hr) as (Hd & _). rewrite Hd.
  cbn [round_truck_row select_truck_columns durations t_Waiting_Time_min
       t_Loading_Time_min t_Total_Time_min Waiting_Time_min Loading_Time_min
       Total_Time_min interval].
  repeat split; apply rounded_never_negative, drop_negative_minutes.
Qed.

Lemma per_truck_table_never_negative_witness :
  never_negative
    (t_Waiting_Time_min
       (round_truck_row (select_truck_columns (durations full_cycle_interval)))).
Proof.
  apply (per_truck_table_never_negative full_cycle 0 [lit "Cement"]).
  vm_compute. left. reflexivity.
Defined.

(** ** The selection widgets (section 5) *)

Lemma dropna_col_map {A K} (f : A -> K) (l : list A) :
  dropna_col (map (fun x => Some (f x)) l) = map f l.
Proof.
  unfold dropna_col. induction l as [|x l IH]; simpl; [reflexivity |].
  rewrite IH. reflexivity.
Qed.

Lemma dropna_keys_total {A K} (f : A -> K) (l : list A) :
  dropna_keys (fun x => Some (f x)) l = map f l.
Proof. induction l as [|x l IH]; simpl; [reflexivity |]. rewrite IH. reflexivity. Qed.

Lemma dates_group_keys (w : list WideRow) :
  dates w = group_keys Z.compare (fun r => Some (w_Date (interval r))) w.
Proof. unfold dates, group_keys. rewrite dropna_col_map, dropna_keys_total. reflexivity. Qed.

Lemma products_group_keys (w : list WideRow) :
  products w = group_keys str_cmp (fun r => Some (w_Product (interval r))) w.
Proof.
  unfold products, group_keys. rewrite dropna_col_map, dropna_keys_total. reflexivity.
Qed.

Lemma dates_In (w : list WideRow) (d : Z) :
  In d (dates w) <-> exists r, In r w /\ w_Date (interval r) = d.
Proof.
  rewrite dates_group_keys, (group_keys_In Z.compare Z_compare_ok).
  split; intros (r & Hr & E); exists r; split; auto; congruence.
Qed.

Lemma products_In (w : list WideRow) (p : pystr) :
  In p (products w) <-> exists r, In r w /\ w_Product (interval r) = p.
Proof.
  rewrite products_group_keys, (group_keys_In str_cmp str_cmp_ok).
  split; intros (r & Hr & E); exists r; split; auto; congruence.
Qed.

Lemma existsb_Zeqb (d : Z) (ds : list Z) : existsb (Z.eqb d) ds = true <-> In d ds.
Proof.
  rewrite existsb_exists. split.
  - intros (x & Hx & E). apply Z.eqb_eq in E. subst. exact Hx.
  - intros H. exists d. split; [exact H | apply Z.eqb_refl].
Qed.

Lemma index_of_nth (d : Z) (ds : list Z) :
  In d ds -> nth_error ds (index_of d ds) = Some d.
Proof.
  induction ds as [|x ds IH]; simpl; [intros [] |].
  destruct (Z.eqb_spec x d) as [-> | Hne]; [reflexivity |].
  intros [H | H]; [contradiction | exact (IH H)].
Qed.

Lemma last_is_greatest (ds : list Z) (d : Z) :
  StronglySorted (fun x y => (x ?= y) = Lt) ds -> last_error ds = Some d ->
  forall d', In d' ds -> d' <= d.
Proof.
  induction 1 as [|x ds Hs IH Hall]; [discriminate |].
  rewrite last_error_cons. destruct (last_error ds) as [y|] eqn:L.
  - intros E d' [<- | H]; [| exact (IH E d' H)]. injection E as <-.
    rewrite Forall_forall in Hall. apply last_error_In in L.
    specialize (Hall y L). destruct (Z.compare_spec x y); try discriminate. lia.
  - intros E d' [<- | H]; [injection E as <-; lia |].
    apply last_error_none in L. subst. destruct H.
Qed.

(** X15. The dates offered are the distinct dates of the records, in
    increasing order. The date selected at first is today when today has
    records, and the latest date with records otherwise; it is one of the
    dates offered, at the index given to the selectbox, and there is none
    only when there is no record. *)
Theorem default_date_selection (today : Z) (w : list WideRow) :
  StronglySorted (fun x y => (x ?= y) = Lt) (dates w) /\
  (forall d, In d (dates w) <-> exists r, In r w /\ w_Date (interval r) = d) /\
  match default_date today (dates w) with
  | Some d =>
      In d (dates w) /\
      nth_error (dates w) (default_index today (dates w)) = Some d /\
      (In today (dates w) -> d = today) /\
      (~ In today (dates w) -> forall d', In d' (dates w) -> d' <= d)
  | None => w = []
  end.
Proof.
  assert (Hs : StronglySorted (fun x y => (x ?= y) = Lt) (dates w)).
  { rewrite dates_group_keys. apply (group_keys_increasing Z.compare Z_compare_ok). }
  split; [exact Hs |]. split; [apply dates_In |].
  unfold default_index, default_date.
  destruct (existsb (Z.eqb today) (dates w)) eqn:E.
  - rewrite E. apply existsb_Zeqb in E.
    split; [exact E |]. split; [apply index_of_nth; exact E |].
    split; [reflexivity | contradiction].
  - destruct (last_error (dates w)) as [d|] eqn:L.
    + pose proof (last_error_In _ _ L) as Hin.
      replace (existsb (Z.eqb d) (dates w)) with true
        by (symmetry; apply existsb_Zeqb; exact Hin).
      split; [exact Hin |]. split; [apply index_of_nth; exact Hin |]. split.
      * intros H. apply existsb_Zeqb in H. congruence.
      * intros _. exact (last_is_greatest _ _ Hs L).
    + apply last_error_none in L. destruct w as [|r w]; [reflexivity |].
      assert (H : In (w_Date (interval r)) (dates (r :: w))).
      { apply dates_In. exists r. split; [left |]; reflexivity. }
      rewrite L in H. destruct H.
Qed.

(** X16. With the default selection of the multiselect (every product), the
    day frame holds all the records of the selected date and only them. *)
Theorem df_day_default_products (w : list WideRow) (sel_date : Z) :
  df_day w sel_date (products w) =
  filter (fun r => Z.eqb (w_Date (interval r)) sel_date) w.
Proof.
  unfold df_day. apply filter_ext_in. intros r Hr.
  replace (has_col (w_Product (interval r)) (products w)) with true;
    [apply andb_true_r |].
  symmetry. apply has_col_In, products_In. exists r. auto.
Qed.

Lemma same_date_keys (d : Z) (ks : list (Z * pystr)) :
  (forall k, In k ks -> fst k = d) -> NoDup ks -> NoDup (map snd ks).
Proof.
  intros Hd. induction 1 as [|k ks Hnot Hnd IH]; simpl; constructor.
  - intros H. apply in_map_iff in H. destruct H as (k' & E & Hk'). apply Hnot.
    replace k with k'; [exact Hk' |].
    destruct k as [a b], k' as [a' b']. simpl in E. subst b'.
    pose proof (Hd (a, b) (or_introl eq_refl)) as H1.
    pose proof (Hd (a', b) (or_intror Hk')) as H2. simpl in H1, H2. congruence.
  - apply IH. intros k' Hk'. apply Hd. right. exact Hk'.
Qed.

(** X17. The summary of a selected day has one row per selected product
    that has a record on that date: every row carries the selected date and
    a selected product, no product comes twice, and every such product has
    its row. *)
Theorem summary_of_selected_day (float_mean : list Q -> Q) (np_round1 : Q -> Q)
  (w : list WideRow) (sel_date : Z) (sel_products : list pystr) :
  let day := df_day w sel_date sel_products in
  (forall s, In s (summary float_mean np_round1 day) -> s_Date s = sel_date /\ In (s_Product s) sel_products) /\
  NoDup (map s_Product (summary float_mean np_round1 day)) /\
  (forall p, In p (map s_Product (summary float_mean np_round1 day)) <->
             In p sel_products /\
             exists r, In r w /\ w_Date (interval r) = sel_date /\ w_Product (interval r) = p).
Proof.
  intros day.
  assert (Hkeys : forall k, In k (map summary_key (summary float_mean np_round1 day)) <->
                            exists r, In r day /\ k = (w_Date (interval r), w_Product (interval r))).
  { intros k. rewrite (summary_keys float_mean np_round1), (group_keys_In key2_cmp key2_cmp_ok).
    unfold key2. split; intros (r & Hr & Hk); exists r; split; auto; congruence. }
  assert (Hrow : forall s, In s (summary float_mean np_round1 day) ->
                           s_Date s = sel_date /\ In (s_Product s) sel_products).
  { intros s Hs. apply (in_map summary_key) in Hs. apply Hkeys in Hs.
    destruct Hs as (r & Hr & Hk). apply df_day_subset in Hr.
    unfold summary_key in Hk. injection Hk as -> ->. tauto. }
  split; [exact Hrow |]. split.
  - replace (map s_Product (summary float_mean np_round1 day)) with (map snd (map summary_key (summary float_mean np_round1 day)))
      by (rewrite map_map; reflexivity).
    apply (same_date_keys sel_date).
    + intros k Hk. apply in_map_iff in Hk. destruct Hk as (s & <- & Hs).
      apply (Hrow s Hs).
    + rewrite (summary_keys float_mean np_round1). apply (group_keys_NoDup key2_cmp key2_cmp_ok).
  - intros p. split.
    + intros Hp. apply in_map_iff in Hp. destruct Hp as (s & <- & Hs).
      split; [apply (Hrow s Hs) |].
      apply (in_map summary_key) in Hs. apply Hkeys in Hs.
      destruct Hs as (r & Hr & Hk). apply df_day_subset in Hr.
      unfold summary_key in Hk. injection Hk as _ ->. exists r. tauto.
    + intros (Hp & r & Hr & Hd & Hpr).
      assert (Hin : In (sel_date, p) (map summary_key (summary float_mean np_round1 day))).
      { apply Hkeys. exists r. split; [| congruence].
        unfold day, df_day. apply filter_In. split; [exact Hr |].
        rewrite Hd, Hpr, Z.eqb_refl. simpl. apply has_col_In. exact Hp. }
      apply in_map_iff in Hin. destruct Hin as (s & Hk & Hs).
      apply in_map_iff. exists s. split; [| exact Hs].
      unfold summary_key in Hk. injection Hk as _ ->. reflexivity.
Qed.

(** ** The trend (section 9) *)



Section TrendFacts.
Variable float_mean : list Q -> Q.
Variable w : list WideRow.

Let total_mean (k : Z * pystr) : option Q :=
  agg_mean float_mean (map Total_Time_min (filter (has_key key2_cmp key2 k) w)).

Lemma trend_unfold :
  trend float_mean w =
  dropna_keys (fun r : (Z * pystr) * option Q => option_map (fun q => (fst r, q)) (snd r))
    (map (fun k => (k, total_mean k)) (group_keys key2_cmp key2 w)).
Proof. unfold trend, trend_agg, groupby. rewrite map_map. reflexivity. Qed.

Lemma trend_keys :
  map fst (trend float_mean w) =
  filter (fun k => match total_mean k with Some _ => true | None => false end)
    (group_keys key2_cmp key2 w).
Proof.
  rewrite trend_unfold. induction (group_keys key2_cmp key2 w) as [|k ks IH]; [reflexivity |].
  cbn [map dropna_keys filter snd fst]. destruct (total_mean k); cbn [option_map map fst].
  - rewrite IH. reflexivity.
  - exact IH.
Qed.

Lemma trend_assoc (k : Z * pystr) :
  assoc (eqb_of key2_cmp) k (trend float_mean w) = total_mean k.
Proof.
  rewrite trend_unfold.
  assert (H : forall ks,
    assoc (eqb_of key2_cmp) k
      (dropna_keys
         (fun r : (Z * pystr) * option Q => option_map (fun q => (fst r, q)) (snd r))
         (map (fun k' => (k', total_mean k')) ks)) =
    if existsb (fun k' => eqb_of key2_cmp k' k) ks then total_mean k else None).
  { induction ks as [|k' ks IH]; [reflexivity |].
    cbn [map dropna_keys snd fst existsb].
    destruct (eqb_of key2_cmp k' k) eqn:E.
    - apply (eqb_of_true key2_cmp key2_cmp_ok) in E. subst k'. cbn [orb].
      destruct (total_mean k) eqn:M; cbn [option_map assoc].
      + rewrite (eqb_of_refl key2_cmp key2_cmp_ok). reflexivity.
      + rewrite IH. destruct (existsb _ ks); reflexivity.
    - cbn [orb]. destruct (total_mean k'); cbn [option_map assoc]; [rewrite E |]; exact IH. }
  rewrite H.
  destruct (existsb (fun k' => eqb_of key2_cmp k' k) (group_keys key2_cmp key2 w)) eqn:E;
    [reflexivity |].
  unfold total_mean.
  replace (filter (has_key key2_cmp key2 k) w) with (@nil WideRow); [reflexivity |].
  symmetry. apply (group_nonempty key2_cmp key2_cmp_ok). intros Hin.
  assert (X : existsb (fun k' => eqb_of key2_cmp k' k) (group_keys key2_cmp key2 w) = true).
  { apply existsb_exists. exists k. split; [exact Hin |].
    apply (eqb_of_refl key2_cmp key2_cmp_ok). }
  congruence.
Qed.


Lemma trend_keys_NoDup : NoDup (map fst (trend float_mean w)).
Proof.
  rewrite trend_keys. apply NoDup_filter, (group_keys_NoDup key2_cmp key2_cmp_ok).
Qed.

Lemma agg_mean_known {A} (f : A -> option Q) (g : list A) (q : Q) :
  agg_mean float_mean (map f g) = Some q <->
  known_values f g <> [] /\ q = float_mean (known_values f g).
Proof.
  unfold agg_mean. rewrite dropna_col_known.
  destruct (known_values f g) as [|x l]; split.
  - discriminate.
  - intros [H _]. contradiction.
  - intros H. injection H as <-. split; [discriminate | reflexivity].
  - intros [_ ->]. reflexivity.
Qed.

Lemma trend_In (d : Z) (p : pystr) (q : Q) :
  In ((d, p), q) (trend float_mean w) <->
  known_values Total_Time_min (group_of w d p) <> [] /\
  q = float_mean (known_values Total_Time_min (group_of w d p)).
Proof.
  assert (G : total_mean (d, p) = agg_mean float_mean (map Total_Time_min (group_of w d p))).
  { unfold total_mean, group_of. do 2 f_equal. apply filter_ext. intros r.
    apply has_key2_same_group. }
  rewrite <- agg_mean_known, <- G, <- trend_assoc. split.
  - apply (In_assoc key2_cmp key2_cmp_ok). exact trend_keys_NoDup.
  - apply (assoc_Some_In key2_cmp key2_cmp_ok).
Qed.

End TrendFacts.

(** X18. The trend has one point for a (date, product) exactly when some
    record of that date and product has a known total time, and none
    otherwise; the point is the float64 mean of the known totals of that
    date and product, not rounded. *)
Theorem trend_points (float_mean : list Q -> Q) (w : list WideRow) :
  (forall d p q, In ((d, p), q) (trend float_mean w) <->
                 known_values Total_Time_min (group_of w d p) <> [] /\
                 q = float_mean (known_values Total_Time_min (group_of w d p))) /\
  (forall d p, In (d, p) (map fst (trend float_mean w)) <->
               exists r, In r w /\ w_Date (interval r) = d /\
                         w_Product (interval r) = p /\ Total_Time_min r <> None) /\
  NoDup (map fst (trend float_mean w)).
Proof.
  split; [apply trend_In |]. split; [| apply trend_keys_NoDup].
  assert (K : forall d p, known_values Total_Time_min (group_of w d p) <> [] <->
               exists r, In r w /\ w_Date (interval r) = d /\
                         w_Product (interval r) = p /\ Total_Time_min r <> None).
  { intros d p. split.
    - intros H. destruct (known_values Total_Time_min (group_of w d p)) as [|x l] eqn:E;
        [contradiction H; reflexivity |].
      assert (Hx : In x (known_values Total_Time_min (group_of w d p)))
        by (rewrite E; left; reflexivity).
      apply known_values_In in Hx. destruct Hx as (r & Hr & Hq).
      unfold group_of in Hr. apply filter_In in Hr. destruct Hr as [Hr Hg].
      unfold same_group in Hg. apply andb_true_iff in Hg. destruct Hg as [Hd Hp].
      apply Z.eqb_eq in Hd. apply str_eqb_eq in Hp.
      exists r. repeat split; auto. congruence.
    - intros (r & Hr & Hd & Hp & Ht) E.
      destruct (Total_Time_min r) as [x|] eqn:Ex; [| contradiction Ht; reflexivity].
      assert (Hx : In x (known_values Total_Time_min (group_of w d p))).
      { apply known_values_In. exists r. split; [| exact Ex].
        unfold group_of. apply filter_In. split; [exact Hr |].
        unfold same_group. rewrite Hd, Hp, Z.eqb_refl. simpl. apply str_eqb_eq. reflexivity. }
      rewrite E in Hx. exact Hx. }
  intros d p. rewrite <- K. split.
  - intros H. apply in_map_iff in H. destruct H as ([[d' p'] q] & E & H).
    simpl in E. injection E as -> ->. apply trend_In in H. tauto.
  - intros H.
    assert (Hin : In ((d, p), float_mean (known_values Total_Time_min (group_of w d p)))
                    (trend float_mean w)) by (apply trend_In; auto).
    apply (in_map fst) in Hin. exact Hin.
Qed.

Lemma group_of_day (w : list WideRow) (d : Z) (ps : list pystr) (p : pystr) :
  In p ps -> group_of (df_day w d ps) d p = group_of w d p.
Proof.
  intros Hp. unfold group_of, df_day. rewrite filter_filter. apply filter_ext.
  intros r. unfold same_group.
  destruct (Z.eqb (w_Date (interval r)) d); [| reflexivity]. cbn [andb].
  destruct (str_eqb (w_Product (interval r)) p) eqn:E; [| apply andb_false_r].
  apply str_eqb_eq in E. rewrite E. rewrite andb_true_r.
  apply has_col_In. exact Hp.
Qed.

(** X19. The average total time that the daily summary shows for a product
    is the point of the trend for the selected date and that product, as
    [round(1)] rounds it; it is absent when the trend has no such point. *)
Theorem summary_matches_trend (float_mean : list Q -> Q) (np_round1 : Q -> Q)
  (w : list WideRow) (sel_date : Z) (sel_products : list pystr) (s : SummaryRow) :
  In s (summary float_mean np_round1 (df_day w sel_date sel_products)) ->
  Avg_Total_min s =
  option_map np_round1
    (assoc (eqb_of key2_cmp) (s_Date s, s_Product s) (trend float_mean w)).
Proof.
  intros Hs.
  destruct (summary_row_fields float_mean np_round1 _ s Hs) as (_ & Ht & Hk).
  apply (group_keys_In key2_cmp key2_cmp_ok) in Hk. destruct Hk as (r & Hr & Hk).
  apply df_day_subset in Hr. destruct Hr as (_ & Hd & Hp).
  unfold key2 in Hk. injection Hk as Hd' Hp'.
  rewrite Ht, trend_assoc. do 2 f_equal.
  assert (E : s_Date s = sel_date) by congruence. rewrite E.
  rewrite group_of_day by (rewrite <- Hp'; exact Hp).
  unfold group_of. f_equal. apply filter_ext. intros x.
  symmetry. apply has_key2_same_group.
Qed.

Lemma summary_matches_trend_witness :
  Some (7388718138654720 # 70368744177664)%Q =
  option_map b64_round1
    (assoc (eqb_of key2_cmp) (0, lit "Cement") (trend b64_mean (wide full_cycle))).
Proof.
  apply (summary_matches_trend b64_mean b64_round1 (wide full_cycle) 0 [lit "Cement"]
           {| s_Date := 0; s_Product := lit "Cement";
              Avg_Waiting_min := Some (8444249301319680 # 281474976710656)%Q;
              Avg_Loading_min := Some (5277655813324800 # 70368744177664)%Q;
              Avg_Total_min := Some (7388718138654720 # 70368744177664)%Q;
              Truck_Count := 1 |}).
  vm_compute. left. reflexivity.
Defined.



(** ** The pivot does not depend on the order of the events *)

Lemma increasing_unique {K} (c : K -> K -> comparison) (ok : OrdOK c) (l1 l2 : list K) :
  StronglySorted (fun x y => c x y = Lt) l1 ->
  StronglySorted (fun x y => c x y = Lt) l2 ->
  (forall x, In x l1 <-> In x l2) -> l1 = l2.
Proof.
  intros H1. revert l2. induction H1 as [|x l1 Hs1 IH Hall1]; intros l2 H2 Hin.
  - destruct l2 as [|y l2]; [reflexivity |]. exfalso. apply (Hin y). left. reflexivity.
  - destruct H2 as [|y l2 Hs2 Hall2].
    + exfalso. apply (Hin x). left. reflexivity.
    + rewrite Forall_forall in Hall1, Hall2.
      assert (Hirr : forall a, c a a <> Lt).
      { intros a Ha. replace (c a a) with Eq in Ha; [discriminate |].
        symmetry. apply (ord_eq c ok). reflexivity. }
      assert (Hasym : forall a b, c a b = Lt -> c b a = Lt -> False).
      { intros a b Hab Hba. rewrite (ord_sym c ok), Hab in Hba. discriminate. }
      assert (E : x = y).
      { destruct (proj1 (Hin x) (or_introl eq_refl)) as [E | Hx]; [auto |].
        destruct (proj2 (Hin y) (or_introl eq_refl)) as [E | Hy]; [auto |].
        exfalso. exact (Hasym x y (Hall1 y Hy) (Hall2 x Hx)). }
      subst y. f_equal. apply IH; [exact Hs2 |].
      intros z. split; intros Hz.
      * destruct (proj1 (Hin z) (or_intror Hz)) as [E | Hz']; [| exact Hz'].
        subst z. exfalso. exact (Hirr x (Hall1 x Hz)).
      * destruct (proj2 (Hin z) (or_intror Hz)) as [E | Hz']; [| exact Hz'].
        subst z. exfalso. exact (Hirr x (Hall2 x Hz)).
Qed.

Lemma is_earliest_unique (action : list Event) (k : Key3) (s : pystr) (f1 f2 : option Z) :
  is_earliest action k s f1 -> is_earliest action k s f2 -> f1 = f2.
Proof.
  destruct f1 as [t1|], f2 as [t2|]; simpl; intros H1 H2; [| exfalso | exfalso | reflexivity].
  - destruct H1 as [(e1 & He1 & Hk1 & Hs1 & <-) Hmin1].
    destruct H2 as [(e2 & He2 & Hk2 & Hs2 & <-) Hmin2].
    f_equal. apply Z.le_antisymm; auto.
  - destruct H1 as [(e1 & He1 & Hk1 & Hs1 & _) _]. exact (H2 e1 He1 Hk1 Hs1).
  - destruct H2 as [(e2 & He2 & Hk2 & Hs2 & _) _]. exact (H1 e2 He2 Hk2 Hs2).
Qed.

Lemma is_earliest_perm (action action' : list Event) (k : Key3) (s : pystr)
  (f : option Z) :
  Permutation action action' -> is_earliest action k s f -> is_earliest action' k s f.
Proof.
  intros Hp. destruct f as [t|]; simpl.
  - intros [(e & He & H) Hmin]. split.
    + exists e. split; [exact (Permutation_in _ Hp He) | exact H].
    + intros x Hx. apply Hmin. exact (Permutation_in _ (Permutation_sym Hp) Hx).
  - intros H x Hx. apply H. exact (Permutation_in _ (Permutation_sym Hp) Hx).
Qed.

(** X21. The interval records do not depend on the order in which the
    events arrive: two feeds with the same events give the same [wide]. *)
Theorem wide_order_independent (action action' : list Event) :
  Permutation action action' -> wide action = wide action'.
Proof.
  intros Hp. unfold wide, wide_pivot. f_equal.
  assert (Hidx : pt_index (pivot_table (first_stage action)) =
                 pt_index (pivot_table (first_stage action'))).
  { apply (increasing_unique key3_cmp key3_cmp_ok).
    - unfold pivot_table. cbn [pt_index].
      apply (group_keys_increasing key3_cmp key3_cmp_ok).
    - unfold pivot_table. cbn [pt_index].
      apply (group_keys_increasing key3_cmp key3_cmp_ok).
    - intros k. rewrite !pt_index_In.
      split; intros (e & He & H); exists e; split; auto;
        [exact (Permutation_in _ Hp He) | exact (Permutation_in _ (Permutation_sym Hp) He)]. }
  rewrite Hidx. apply map_ext. intros k.
  assert (Hcol : forall s,
            wide_column (pivot_table (first_stage action)) s k =
            wide_column (pivot_table (first_stage action')) s k).
  { intros s. apply (is_earliest_unique action' k s).
    - apply (is_earliest_perm action action' k s _ Hp), wide_column_earliest.
    - apply wide_column_earliest. }
  rewrite !Hcol. reflexivity.
Qed.

Lemma wide_order_independent_witness : wide full_cycle = wide (rev full_cycle).
Proof. apply wide_order_independent. apply Permutation_rev. Defined.

(** ** When [load_action] returns *)

(** X22. The columns that line 40 finds missing after the renaming loop
    are the required fields that the feed has neither under their own name
    nor under their alias ("Plate Number", "Product Group", "Action",
    "Time"); a field that the feed has under either name is never reported. *)
Theorem missing_after_renaming (cols : list pystr) (c : pystr) :
  In c (missing (renamed cols)) <->
  In c req /\ ~ In c cols /\
  (forall alias, In (alias, c) rename_map -> ~ In alias cols).
Proof.
  rewrite missing_renamed. unfold missing_fields. rewrite filter_In.
  rewrite negb_true_iff. unfold field_present. rewrite orb_false_iff.
  rewrite <- not_true_iff_false, has_col_In.
  rewrite <- not_true_iff_false, existsb_exists.
  split; intros (Hc & Hn & Ha); (split; [exact Hc |]); (split; [exact Hn |]).
  - intros alias Hin Hal. apply Ha. exists (alias, c). split; [exact Hin |].
    cbn [fst snd]. apply andb_true_iff. split.
    + apply str_eqb_eq. reflexivity.
    + apply has_col_In. exact Hal.
  - intros ([alias c'] & Hin & E). cbn [fst snd] in E.
    apply andb_true_iff in E. destruct E as [E1 E2].
    apply str_eqb_eq in E1. subst c'. apply has_col_In in E2.
    exact (Ha alias Hin E2).
Qed.
